(** * pyramid_heroku.migrate: graceful database migrations on Heroku

    A shallow embedding of [src/pyramid_heroku/migrate.py] and the proofs of
    the properties its specification states.

    The class [Heroku] talks to three things outside the program: the
    process environment (the API secret), the Heroku platform API (through a
    [requests.Session]) and the [alembic] command (through [subprocess]).
    They are gathered in a record [Env]; the two that answer calls are
    functions of what the program has done so far, so that a remote service
    may answer the same request differently at different times.  Every
    call that leaves the process is appended to a trace; an exception stops
    the method that raised it and all its callers, and the trace built up to
    that point stays observable.

    Writes to standard output ([print]) are not part of the model: no branch
    of the program depends on them.  The expressions that are printed are
    still evaluated, because evaluating them can raise.

    The methods come in two layers.  The first takes the commands for
    granted: a command line is run, and what it prints when it exits with 0
    is text.  The module [Full], further down, puts the class on a host
    ([Host]) where a command line may not be run at all and where the bytes
    that a command prints may not be valid UTF-8; on a host where the
    commands do run and print text, the two layers give the same runs.  The
    host
    also has the file [~/.netrc], from which the library takes the
    authorization of a request when it finds an entry there. *)

From Stdlib Require Import ZArith List String Ascii Bool Lia.
Import ListNotations.
Local Open Scope string_scope.
Local Open Scope Z_scope.

(** ** Python values the program handles *)

Module Py.

(** [needle in hay] on [str]. *)
Fixpoint contains (needle hay : string) : bool :=
  if String.prefix needle hay then true
  else match hay with
       | EmptyString => false
       | String _ rest => contains needle rest
       end.

(** A [dict] from [str] to [int]: insertion ordered, one entry per key.
    Assigning to a key that is present keeps its place. *)
Definition dict := list (string * Z).

Fixpoint setitem (k : string) (v : Z) (d : dict) : dict :=
  match d with
  | [] => [(k, v)]
  | (k', v') :: d' =>
      if String.eqb k k' then (k', v) :: d' else (k', v') :: setitem k v d'
  end.

Fixpoint getitem (k : string) (d : dict) : option Z :=
  match d with
  | [] => None
  | (k', v') :: d' => if String.eqb k k' then Some v' else getitem k d'
  end.

Definition keys (d : dict) : list string := map fst d.
Definition items (d : dict) : list (string * Z) := d.

(** [{x['type']: x['quantity'] for x in xs}] *)
Definition dict_comprehension (xs : list (string * Z)) : dict :=
  fold_left (fun d x => setitem (fst x) (snd x) d) xs [].

(** Truth value of an attribute that holds [None] or a [dict]: [None] and
    the empty [dict] are both false. *)
Definition truthy (o : option dict) : bool :=
  match o with
  | None => false
  | Some [] => false
  | Some (_ :: _) => true
  end.

(** [format] of a value that is [None] or a [str], as an f-string does. *)
Definition format_opt (o : option string) : string :=
  match o with
  | None => "None"
  | Some s => s
  end.

(** [str.lower] on ASCII text. *)
Definition lower_ascii (c : ascii) : ascii :=
  let n := nat_of_ascii c in
  if (Nat.leb 65 n && Nat.leb n 90)%bool then ascii_of_nat (n + 32) else c.

Fixpoint lower (s : string) : string :=
  match s with
  | EmptyString => EmptyString
  | String c rest => String (lower_ascii c) (lower rest)
  end.

(** [bytes.decode()]: UTF-8, strict.  A [string] is a sequence of bytes, and
    a text is kept as the bytes of its UTF-8 encoding, in which the bytes of
    an ASCII text such as ["head"] occur exactly where the text does.  The
    decoder is at a [Boundary] between characters, or inside a character
    with [more] bytes to come after the next one, which has to be from [lo]
    to [hi]: this excludes the encodings that are too long, the surrogates
    and what is above U+10FFFF. *)
Inductive utf8_state :=
| Boundary
| Inside (more : nat) (lo hi : N).

Definition utf8_step (s : utf8_state) (c : ascii) : option utf8_state :=
  let b := N_of_ascii c in
  match s with
  | Boundary =>
      if (b <=? 127)%N then Some Boundary
      else if ((194 <=? b) && (b <=? 223))%N then Some (Inside 0 128 191)
      else if (b =? 224)%N then Some (Inside 1 160 191)
      else if (b =? 237)%N then Some (Inside 1 128 159)
      else if ((225 <=? b) && (b <=? 239))%N then Some (Inside 1 128 191)
      else if (b =? 240)%N then Some (Inside 2 144 191)
      else if ((241 <=? b) && (b <=? 243))%N then Some (Inside 2 128 191)
      else if (b =? 244)%N then Some (Inside 2 128 143)
      else None
  | Inside more lo hi =>
      if ((lo <=? b) && (b <=? hi))%N
      then Some match more with
                | O => Boundary
                | S n => Inside n 128 191
                end
      else None
  end.

Fixpoint utf8_from (s : utf8_state) (b : string) : bool :=
  match b with
  | EmptyString => match s with Boundary => true | Inside _ _ _ => false end
  | String c rest =>
      match utf8_step s c with
      | Some s' => utf8_from s' rest
      | None => false
      end
  end.

Definition utf8 (b : string) : bool := utf8_from Boundary b.

(** [None] stands for [UnicodeDecodeError]. *)
Definition decode (b : string) : option string :=
  if utf8 b then Some b else None.

End Py.

(** ** The [requests] library, as far as the program uses it *)

Module Requests.

(** The body of a response, classified by what [res.json()] gives and by
    what the program does with the result:
    - [NotJson]: the body is not a JSON document, [res.json()] raises;
    - [FormationList xs]: a JSON array of objects with a ["type"] and a
      ["quantity"], a string and an integer as the formation end points
      return them (a document that iterates to nothing counts as the empty
      array);
    - [LacksKey]: a JSON array of objects, the first of which that is not
      as above lacks ["type"] or ["quantity"]: subscripting it raises
      [KeyError];
    - [OtherJson]: a JSON document that is not an array of objects (an app
      object, an error object, a number, an array of numbers); iterating
      it, or subscripting what it iterates to, raises [TypeError]. *)
Inductive body :=
| NotJson
| FormationList (xs : list (string * Z))
| LacksKey
| OtherJson.

Record Response := mkResponse {
  status_code : Z;
  content : body
}.

Inductive method := GET | PATCH.

(** The [json=] argument of the two kinds of PATCH the program sends:
    [dict(updates=[dict(type=t, quantity=q), ...])] and
    [dict(maintenance=state)]. *)
Inductive payload :=
| Updates (us : list (string * Z))
| Maintenance (state : bool).

(** [Session.headers] is a case-insensitive dict. *)
Definition Headers := list (string * string).

Definition same_name (a b : string) : bool :=
  String.eqb (Py.lower a) (Py.lower b).

Fixpoint header_set (k v : string) (h : Headers) : Headers :=
  match h with
  | [] => [(k, v)]
  | (k', v') :: h' =>
      if same_name k k' then (k, v) :: h' else (k', v') :: header_set k v h'
  end.

Fixpoint header_get (k : string) (h : Headers) : option string :=
  match h with
  | [] => None
  | (k', v') :: h' => if same_name k k' then Some v' else header_get k h'
  end.

(** [headers.update(new)] *)
Definition headers_update (new : Headers) (h : Headers) : Headers :=
  fold_left (fun acc kv => header_set (fst kv) (snd kv) acc) new h.

(** A request as the program makes it: the method, the URL and the
    [json=] argument of the call, and the headers that the session has at
    that time.  What the library adds to these headers when it prepares the
    request (the length of the body, for one) is not part of it. *)
Record Request := mkRequest {
  meth : method;
  url : string;
  headers : Headers;
  json : option payload
}.

(** [Response.raise_for_status] raises [HTTPError] for a status code from
    400 to 599 and does nothing for any other. *)
Definition is_error_status (code : Z) : bool :=
  ((400 <=? code) && (code <? 500) || (500 <=? code) && (code <? 600))%bool.

(** [base64.b64encode] *)
Definition b64_alphabet : string :=
  "ABCDEFGHIJKLMNOPQRSTUVWXYZabcdefghijklmnopqrstuvwxyz0123456789+/".

Definition b64_digit (n : N) : ascii :=
  match String.get (N.to_nat n) b64_alphabet with
  | Some c => c
  | None => "="%char
  end.

Fixpoint b64encode (s : string) : string :=
  match s with
  | EmptyString => EmptyString
  | String a EmptyString =>
      let x := N_of_ascii a in
      String (b64_digit (x / 4))
        (String (b64_digit (x mod 4 * 16)) "==")
  | String a (String b EmptyString) =>
      let x := N_of_ascii a in
      let y := N_of_ascii b in
      String (b64_digit (x / 4))
        (String (b64_digit (x mod 4 * 16 + y / 16))
           (String (b64_digit (y mod 16 * 4)) "="))
  | String a (String b (String c rest)) =>
      let x := N_of_ascii a in
      let y := N_of_ascii b in
      let z := N_of_ascii c in
      String (b64_digit (x / 4))
        (String (b64_digit (x mod 4 * 16 + y / 16))
           (String (b64_digit (y mod 16 * 4 + z / 64))
              (String (b64_digit (z mod 64)) (b64encode rest))))
  end%N.

(** The value of the [Authorization] header of HTTP basic authentication,
    [requests.auth._basic_auth_str]. *)
Definition basic_auth_str (login password : string) : string :=
  "Basic " ++ b64encode (login ++ ":" ++ password).

(** The host of a URL, as [get_netrc_auth] takes it:
    [urlparse(url).netloc.split(":")[0]].  A scheme is a letter followed
    by letters, digits and [+-.], up to the first colon; the network
    location is there when two slashes follow, and goes on to the first of
    [/?#]. *)
Fixpoint split_colon (u : string) : option (string * string) :=
  match u with
  | EmptyString => None
  | String c rest =>
      if Ascii.eqb c ":" then Some (EmptyString, rest)
      else match split_colon rest with
           | Some (before, after) => Some (String c before, after)
           | None => None
           end
  end.

Definition is_letter (c : ascii) : bool :=
  let n := nat_of_ascii c in
  ((Nat.leb 65 n && Nat.leb n 90) || (Nat.leb 97 n && Nat.leb n 122))%bool.

Definition is_scheme_char (c : ascii) : bool :=
  let n := nat_of_ascii c in
  (is_letter c || (Nat.leb 48 n && Nat.leb n 57)
   || Ascii.eqb c "+" || Ascii.eqb c "-" || Ascii.eqb c ".")%bool.

Definition is_scheme (s : string) : bool :=
  match s with
  | EmptyString => false
  | String c _ => (is_letter c && forallb is_scheme_char (list_ascii_of_string s))%bool
  end.

Definition after_scheme (u : string) : string :=
  match split_colon u with
  | Some (s, rest) => if is_scheme s then rest else u
  | None => u
  end.

Fixpoint up_to (stops : string) (u : string) : string :=
  match u with
  | EmptyString => EmptyString
  | String a rest =>
      if existsb (Ascii.eqb a) (list_ascii_of_string stops) then EmptyString
      else String a (up_to stops rest)
  end.

Definition netloc (u : string) : string :=
  match after_scheme u with
  | String a (String b rest) =>
      if (Ascii.eqb a "/" && Ascii.eqb b "/")%bool then up_to "/?#" rest
      else EmptyString
  | _ => EmptyString
  end.

Definition url_host (u : string) : string := up_to ":" (netloc u).

End Requests.
Export Requests.

(** ** Exceptions *)

Inductive exn :=
| HTTPError (status : Z)
| JSONDecodeError
| TypeError
| KeyError
| ConnectionError
| CalledProcessError (returncode : Z)
| ValueError
| OSError
| UnicodeDecodeError.

(** ** The world outside the process *)

(** What [subprocess.check_output] observes of the child process: its exit
    status and the bytes it wrote to its standard output. *)
Record CompletedProcess := mkCompleted {
  returncode : Z;
  stdout : string
}.

Inductive event :=
| Http (r : Request)
| Subprocess (cmd : string)
| Sleep (secs : Z).

Record Env := mkEnv {
  (** [os.environ.get] *)
  environ : string -> option string;
  (** the headers a fresh [Session()] starts with *)
  default_headers : Headers;
  (** the answer to a request, given everything done before it: the
      response that the call returns, after the redirections that the
      library follows on its own; [inl] when no response arrives *)
  send : list event -> Request -> exn + Response;
  (** the run of a command line, given everything done before it *)
  run : list event -> string -> CompletedProcess
}.

(** What the machine the program runs on adds to this. *)
Record Host := mkHost {
  (** the exception, if any, that keeps a command line from being run,
      given everything done before: [ValueError] from [shlex.split] (a
      quotation that is not closed, a backslash at the end), or the error
      of the system when it cannot start the program *)
  start : list event -> string -> option exn;
  (** the login and the password that [~/.netrc] has for a host *)
  netrc : string -> option (string * string)
}.

(** ** The object and the monad of its methods *)

Record Heroku := mkHeroku {
  _formation : option Py.dict;
  app_name : string;
  ini_file : string;
  app_section : string;
  session : Headers
}.

Record State := mkState {
  self : Heroku;
  trace : list event
}.

Inductive outcome (A : Type) :=
| Return (a : A)
| Raise (e : exn).
Arguments Return {A} a.
Arguments Raise {A} e.

Definition M (A : Type) : Type := Env -> State -> outcome A * State.

Definition ret {A} (a : A) : M A := fun _ st => (Return a, st).

Definition raise {A} (e : exn) : M A := fun _ st => (Raise e, st).

Definition bind {A B} (m : M A) (k : A -> M B) : M B :=
  fun env st =>
    match m env st with
    | (Return a, st') => k a env st'
    | (Raise e, st') => (Raise e, st')
    end.

Declare Scope py_scope.
Delimit Scope py_scope with py.
Notation "x <- m ;; k" := (bind m (fun x => k))
  (at level 61, m at next level, right associativity) : py_scope.
Notation "m ;; k" := (bind m (fun _ => k))
  (at level 61, right associativity) : py_scope.
Local Open Scope py_scope.

Definition get_self : M Heroku := fun _ st => (Return (self st), st).

Definition record (e : event) (st : State) : State :=
  mkState (self st) (trace st ++ [e]).

Definition set_formation_attr (d : Py.dict) : M unit :=
  fun _ st =>
    let h := self st in
    (Return tt,
     mkState (mkHeroku (Some d) (app_name h) (ini_file h) (app_section h)
                       (session h))
             (trace st)).

(** [self.session.get(url)] and [self.session.patch(url, json=...)]: the
    call is recorded with what the program gives the library, the headers
    of the session among them.  What the library sends is more than that;
    [authorization_sent] below has what becomes of the authorization. *)
Definition session_request (m : method) (u : string) (j : option payload)
  : M Response :=
  fun env st =>
    let r := mkRequest m u (session (self st)) j in
    match send env (trace st) r with
    | inl e => (Raise e, record (Http r) st)
    | inr res => (Return res, record (Http r) st)
    end.

(** [res.json()] *)
Definition res_json (res : Response) : M body :=
  match content res with
  | NotJson => raise JSONDecodeError
  | b => ret b
  end.

(** [for x in ...: x["type"] ... x["quantity"]] over a decoded body *)
Definition each_type_quantity (b : body) : M (list (string * Z)) :=
  match b with
  | FormationList xs => ret xs
  | LacksKey => raise KeyError
  | _ => raise TypeError
  end.

(** [res.raise_for_status()] *)
Definition raise_for_status (res : Response) : M unit :=
  if is_error_status (status_code res)
  then raise (HTTPError (status_code res))
  else ret tt.

(** [time.sleep] *)
Definition sleep (secs : Z) : M unit :=
  fun _ st => (Return tt, record (Sleep secs) st).

(** ** class Heroku *)

Definition api_endpoint : string := "https://api.heroku.com".

(** The Heroku API secret, [None] when the variable is not set. *)
Definition auth_key (env : Env) : option string :=
  environ env "MIGRATE_API_SECRET_HEROKU".

Definition __init__ (env : Env) (app ini section : string) : Heroku :=
  let hdrs :=
    [ ("Authorization", "Bearer " ++ Py.format_opt (auth_key env));
      ("Accept", "application/vnd.heroku+json; version=3");
      ("Content-Type", "application/json") ] in
  mkHeroku None app ini section (headers_update hdrs (default_headers env)).

Definition formation_url (h : Heroku) : string :=
  api_endpoint ++ "/apps/" ++ app_name h ++ "/formation".

Definition app_url (h : Heroku) : string :=
  api_endpoint ++ "/apps/" ++ app_name h.

(** Prints the body of a response whose status is not 200, then lets
    [raise_for_status] decide. *)
Definition parse_response (res : Response) : M bool :=
  (if negb (status_code res =? 200)
   then (_ <- res_json res ;; ret tt)
   else ret tt) ;;
  raise_for_status res ;;
  ret true.

(** The property [formation].  [not self._formation] holds when the
    attribute is [None] and also when it is an empty dict. *)
Definition formation : M Py.dict :=
  h <- get_self ;;
  match _formation h with
  | Some (x :: d) => ret (x :: d)
  | Some [] | None =>
      res <- session_request GET (formation_url h) None ;;
      parse_response res ;;
      b <- res_json res ;;
      xs <- each_type_quantity b ;;
      let d := Py.dict_comprehension xs in
      set_formation_attr d ;;
      ret d
  end.

(** Scale all app workers to 0. *)
Definition scale_down : M unit :=
  f <- formation ;;
  let updates := map (fun t => (t, 0)) (Py.keys f) in
  h <- get_self ;;
  res <- session_request PATCH (formation_url h) (Some (Updates updates)) ;;
  parse_response res ;;
  b <- res_json res ;;
  each_type_quantity b ;;
  ret tt.

(** Scale app back to initial state. *)
Definition scale_up : M unit :=
  f <- formation ;;
  let updates := map (fun ts => (fst ts, snd ts)) (Py.items f) in
  h <- get_self ;;
  res <- session_request PATCH (formation_url h) (Some (Updates updates)) ;;
  parse_response res ;;
  b <- res_json res ;;
  each_type_quantity b ;;
  ret tt.

(** [subprocess.check_output(shlex.split(cmd)).decode()], where the command
    line is one that [shlex.split] accepts, the program is one that the
    system starts, and the output of a run that exits with 0 is valid UTF-8:
    what is left to decide is the exit status.  The command line is kept as
    the string the program builds.  [Full.shell] below is the method with
    the three steps that are taken for granted here. *)
Definition shell (cmd : string) : M string :=
  fun env st =>
    let p := run env (trace st) cmd in
    if returncode p =? 0
    then (Return (stdout p), record (Subprocess cmd) st)
    else (Raise (CalledProcessError (returncode p)),
          record (Subprocess cmd) st).

Definition current_cmd (h : Heroku) : string :=
  "alembic -c " ++ ini_file h ++ " -n " ++ app_section h ++ " current".

Definition upgrade_cmd (h : Heroku) : string :=
  "alembic -c " ++ ini_file h ++ " -n " ++ app_section h ++ " upgrade head".

(** True if the current alembic branch is not up to date. *)
Definition needs_migrate : M bool :=
  h <- get_self ;;
  cmd <- shell (current_cmd h) ;;
  ret (negb (Py.contains "head" cmd)).

(** Run alembic migrations; the result is the standard output. *)
Definition alembic : M string :=
  h <- get_self ;;
  shell (upgrade_cmd h).

Definition set_maintenance (state : bool) : M unit :=
  h <- get_self ;;
  res <- session_request PATCH (app_url h) (Some (Maintenance state)) ;;
  ok <- parse_response res ;;
  ret tt.

(** Run database migration if needed. *)
Definition migrate : M unit :=
  needed <- needs_migrate ;;
  if needed then
    set_maintenance true ;;
    scale_down ;;
    sleep 30 ;;
    _ <- alembic ;;
    scale_up ;;
    sleep 30 ;;
    set_maintenance false
  else
    ret tt.

(** [Heroku(app_name, ini_file, app_section).migrate()], as [main] runs it
    on the parsed arguments. *)
Definition main (env : Env) (app ini section : string) : outcome unit * State :=
  migrate env (mkState (__init__ env app ini section) []).

(** The exit status of the interpreter: 0 when [main] returns, 1 when an
    exception reaches the top. *)
Definition exit_code {A} (o : outcome A) : Z :=
  match o with
  | Return _ => 0
  | Raise _ => 1
  end.

(** ** Vocabulary of the statements *)

(** The three requests the class sends, for an object [h]. *)
Definition formation_request (h : Heroku) : Request :=
  mkRequest GET (formation_url h) (session h) None.

Definition scale_request (h : Heroku) (us : list (string * Z)) : Request :=
  mkRequest PATCH (formation_url h) (session h) (Some (Updates us)).

Definition maintenance_request (h : Heroku) (state : bool) : Request :=
  mkRequest PATCH (app_url h) (session h) (Some (Maintenance state)).

(** Every process type of [F] at quantity 0. *)
Definition zeros (F : Py.dict) : list (string * Z) :=
  map (fun t => (t, 0)) (Py.keys F).

(** The object once its attribute [_formation] holds [F]. *)
Definition with_formation (h : Heroku) (F : Py.dict) : Heroku :=
  mkHeroku (Some F) (app_name h) (ini_file h) (app_section h) (session h).

(** What [parse_response] makes of a response: the exception it raises,
    if any. *)
Definition rejection (res : Response) : option exn :=
  if status_code res =? 200 then None
  else match content res with
       | NotJson => Some JSONDecodeError
       | _ => if is_error_status (status_code res)
              then Some (HTTPError (status_code res))
              else None
       end.


(** The full sequence of a migration of formation [F]. *)
Definition migration_trace (h : Heroku) (F : Py.dict) : list event :=
  [ Subprocess (current_cmd h);
    Http (maintenance_request h true);
    Http (formation_request h);
    Http (scale_request h (zeros F));
    Sleep 30;
    Subprocess (upgrade_cmd h);
    Http (scale_request h (Py.items F));
    Sleep 30;
    Http (maintenance_request h false) ].

(** The events of a trace that are requests to the platform API. *)
Definition api_calls (t : list event) : list Request :=
  flat_map (fun e => match e with Http r => [r] | _ => [] end) t.

Definition is_get (r : Request) : bool :=
  match meth r with GET => true | PATCH => false end.

Definition formation_reads (t : list event) : list Request :=
  filter is_get (api_calls t).

(** What the program reads from a response it takes for a list of
    [{type, quantity}] objects, once [parse_response] has accepted it. *)
Definition listing (res : Response) : exn + list (string * Z) :=
  match rejection res with
  | Some e => inl e
  | None =>
      match content res with
      | NotJson => inl JSONDecodeError
      | FormationList xs => inr xs
      | LacksKey => inl KeyError
      | OtherJson => inl TypeError
      end
  end.

(** ** Assertions on runs *)

(** [triple env P m Q E]: from a state where [P] holds, [m] ends in a state
    where [Q a] holds if it returns [a], and where [E e] holds if it raises
    [e]. *)
Definition triple {A} (env : Env) (P : State -> Prop) (m : M A)
    (Q : A -> State -> Prop) (E : exn -> State -> Prop) : Prop :=
  forall st, P st ->
    match m env st with
    | (Return a, st') => Q a st'
    | (Raise e, st') => E e st'
    end.

(** A step fails when the outside world makes it raise: no response, a
    response that [parse_response] rejects, a command that exits with a
    status other than 0.  [before] is what had been done when the step was
    made. *)
Definition failed (env : Env) (before : list event) (ev : event) : bool :=
  match ev with
  | Http r =>
      match send env before r with
      | inl _ => true
      | inr res => match rejection res with Some _ => true | None => false end
      end
  | Subprocess cmd => negb (returncode (run env before cmd) =? 0)
  | Sleep _ => false
  end.

(** The exception a failed step raises. *)
Definition raised_by (env : Env) (before : list event) (ev : event) (x : exn)
  : Prop :=
  match ev with
  | Http r =>
      match send env before r with
      | inl e => x = e
      | inr res => rejection res = Some x
      end
  | Subprocess cmd => x = CalledProcessError (returncode (run env before cmd))
  | Sleep _ => False
  end.

Definition no_failure (env : Env) (t : list event) : Prop :=
  forall pre ev post, t = (pre ++ ev :: post)%list ->
    failed env pre ev = false.

(** The only failed step of [t], if any, is its last, and raised [x]. *)
Definition stopped_by (env : Env) (x : exn) (t : list event) : Prop :=
  forall pre ev post, t = (pre ++ ev :: post)%list ->
    failed env pre ev = true ->
    post = [] /\ raised_by env pre ev x.

(** A request of the object [h] is made with the headers of its session. *)
Definition sent_by (h : Heroku) (ev : event) : Prop :=
  match ev with
  | Http r => headers r = session h
  | _ => True
  end.

(** [st'] comes after [st]: the same object up to [_formation], and a trace
    that continues the one of [st] with events of that object. *)
Definition extends (st st' : State) : Prop :=
  app_name (self st') = app_name (self st) /\
  ini_file (self st') = ini_file (self st) /\
  app_section (self st') = app_section (self st) /\
  session (self st') = session (self st) /\
  exists more,
    trace st' = (trace st ++ more)%list /\ Forall (sent_by (self st)) more.

Definition is_scale (r : Request) : bool :=
  match json r with
  | Some (Updates _) => true
  | _ => false
  end.

Definition disables_maintenance (r : Request) : bool :=
  match json r with
  | Some (Maintenance false) => true
  | _ => false
  end.

(** The assertions of the triples about failures. *)
Definition sound (env : Env) (st : State) : Prop :=
  no_failure env (trace st).

Definition halted (env : Env) (x : exn) (st : State) : Prop :=
  stopped_by env x (trace st).

(** The last step of [st] is a request that got the response [res], not yet
    looked at. *)
Definition answered (env : Env) (res : Response) (st : State) : Prop :=
  exists t r, trace st = (t ++ [Http r])%list /\ no_failure env t /\
              send env t r = inr res.

(** [m] keeps a run sound, or halts it at the step that failed. *)
Definition careful {A} (env : Env) (m : M A) : Prop :=
  triple env (sound env) m (fun _ => sound env) (halted env).

(** [m] continues the run of [st0] with the same object. *)
Definition continues {A} (env : Env) (st0 : State) (m : M A) : Prop :=
  triple env (extends st0) m (fun _ => extends st0) (fun _ => extends st0).

(** The formation is cached and [g] are the formation reads made so
    far. *)
Definition cached (g : list Request) (st : State) : Prop :=
  Py.truthy (_formation (self st)) = true /\ formation_reads (trace st) = g.

(** [m] neither reads the formation again nor drops it. *)
Definition keeps_cache {A} (env : Env) (g : list Request) (m : M A) : Prop :=
  triple env (cached g) m (fun _ => cached g) (fun _ => cached g).

(** The operations on the platform API. *)
Inductive api_operation :=
| FormationRead
| ScaleDown
| ScaleUp
| SetMaintenance (state : bool).

Definition perform (op : api_operation) : M unit :=
  match op with
  | FormationRead => _ <- formation ;; ret tt
  | ScaleDown => scale_down
  | ScaleUp => scale_up
  | SetMaintenance state => set_maintenance state
  end.



(** A step succeeds when the method that makes it goes on after it: a
    command exits with 0, a maintenance request gets a response that
    [parse_response] accepts, a formation read or a scale request gets one
    that is accepted and lists [{type, quantity}] objects. *)
Definition step_succeeds (env : Env) (before : list event) (ev : event)
  : bool :=
  match ev with
  | Http r =>
      match send env before r with
      | inl _ => false
      | inr res =>
          match json r with
          | Some (Maintenance _) =>
              match rejection res with None => true | Some _ => false end
          | _ =>
              match listing res with inr _ => true | inl _ => false end
          end
      end
  | Subprocess cmd => returncode (run env before cmd) =? 0
  | Sleep _ => true
  end.

(** Every step of [steps] succeeds when made after [before] and the steps
    that precede it. *)
Fixpoint goes_well (env : Env) (before steps : list event) : bool :=
  match steps with
  | [] => true
  | ev :: rest =>
      step_succeeds env before ev && goes_well env (before ++ [ev]) rest
  end.

(** The formation a read gets, when it gets one. *)
Definition formation_read (env : Env) (before : list event) (h : Heroku)
  : option Py.dict :=
  match send env before (formation_request h) with
  | inl _ => None
  | inr res =>
      match listing res with
      | inl _ => None
      | inr xs => Some (Py.dict_comprehension xs)
      end
  end.

(** The second half of [scale_down] and [scale_up]: the scale request,
    once the formation is known. *)
Definition send_scale (us : list (string * Z)) : M unit :=
  h <- get_self ;;
  res <- session_request PATCH (formation_url h) (Some (Updates us)) ;;
  parse_response res ;;
  b <- res_json res ;;
  each_type_quantity b ;;
  ret tt.

(** ** Scenarios *)

Module Scenario.

(** The headers of a fresh session of [requests]. *)
Definition session_defaults : Headers :=
  [ ("User-Agent", "python-requests/2.31.0");
    ("Accept-Encoding", "gzip, deflate");
    ("Accept", "*/*");
    ("Connection", "keep-alive") ].

(** Runs of [alembic]. *)
Definition pending : CompletedProcess := mkCompleted 0 "1975ea83b712".
Definition at_head : CompletedProcess := mkCompleted 0 "1975ea83b712 (head)".
Definition upgraded : CompletedProcess := mkCompleted 0 "".
Definition crashed : CompletedProcess := mkCompleted 1 "".

(** The first command run gives [first], every later one [later]. *)
Definition commands (first later : CompletedProcess)
  : list event -> string -> CompletedProcess :=
  fun t _ => match t with [] => first | _ => later end.

(** A remote that answers every request with the status [code]: a read
    with the formation [xs], a scale request with the quantities asked
    for, a maintenance request with the app object. *)
Definition remote (code : Z) (xs : list (string * Z))
  : list event -> Request -> exn + Response :=
  fun _ r =>
    match json r with
    | None => inr (mkResponse code (FormationList xs))
    | Some (Updates us) => inr (mkResponse code (FormationList us))
    | Some (Maintenance _) => inr (mkResponse code OtherJson)
    end.

(** A remote whose app has no process type at the first read and one
    [web] process at every later read. *)
Definition growing_remote : list event -> Request -> exn + Response :=
  fun t r =>
    match formation_reads t with
    | [] => remote 200 [] t r
    | _ => remote 200 [("web", 1)] t r
    end.

(** A remote that answers scale requests with [503] and an error
    object. *)
Definition overloaded_remote (xs : list (string * Z))
  : list event -> Request -> exn + Response :=
  fun t r =>
    if is_scale r then inr (mkResponse 503 OtherJson) else remote 200 xs t r.

Definition world (answer : list event -> Request -> exn + Response)
    (cmds : list event -> string -> CompletedProcess) : Env :=
  mkEnv (fun _ => None) session_defaults answer cmds.

Definition web2_worker1 : list (string * Z) := [("web", 2); ("worker", 1)].

Definition app : string := "my_app".
Definition ini : string := "etc/production.ini".
Definition section : string := "app:main".

Definition client : Heroku :=
  __init__ (world (remote 200 []) (commands pending upgraded)) app ini section.


(** A host on which every command line is run and [~/.netrc] has no
    entry. *)
Definition plain_host : Host := mkHost (fun _ _ => None) (fun _ => None).

(** A host where the Heroku command line tool has logged in: it keeps the
    login and the API key in [~/.netrc]. *)
Definition logged_in_host : Host :=
  mkHost (fun _ _ => None)
    (fun machine =>
       if String.eqb machine "api.heroku.com"
       then Some ("user@example.com", "0123-secret")
       else None).

(** A host that runs every command line in which the single quotes are
    closed: with an odd number of them, [shlex.split] finds a quotation
    that is left open. *)
Fixpoint open_quote (inside : bool) (cmd : string) : bool :=
  match cmd with
  | EmptyString => inside
  | String c rest =>
      open_quote (if Ascii.eqb c "'" then negb inside else inside) rest
  end.

Definition quoting_host : Host :=
  mkHost (fun _ cmd => if open_quote false cmd then Some ValueError else None)
    (fun _ => None).

(** A run of the upgrade whose output is not UTF-8: the byte [0xE9], an
    [e] with an acute accent in Latin-1. *)
Definition latin1 : CompletedProcess :=
  mkCompleted 0 (String (ascii_of_nat 233) "chec").

End Scenario.

(** The sequence the specification gives for a migration of [F], after the
    status check: the formation read comes first. *)
Definition specified_sequence (h : Heroku) (F : Py.dict) : list event :=
  [ Http (formation_request h);
    Http (maintenance_request h true);
    Http (scale_request h (zeros F));
    Sleep 30;
    Subprocess (upgrade_cmd h);
    Http (scale_request h (Py.items F));
    Sleep 30;
    Http (maintenance_request h false) ].

(** ** The plan of a run *)

(** The exception of a step that does not succeed. *)
Definition exception_at (env : Env) (before : list event) (ev : event)
  : exn :=
  match ev with
  | Http r =>
      match send env before r with
      | inl e => e
      | inr res =>
          match json r with
          | Some (Maintenance _) =>
              match rejection res with Some e => e | None => TypeError end
          | _ =>
              match listing res with inl e => e | inr _ => TypeError end
          end
      end
  | Subprocess cmd => CalledProcessError (returncode (run env before cmd))
  | Sleep _ => TypeError
  end.

(** The steps of [steps] that are made when each is made only after the
    one before it has succeeded: [steps] up to the first step that does not
    succeed, that step included. *)
Fixpoint follow (env : Env) (before steps : list event) : list event :=
  match steps with
  | [] => []
  | ev :: rest =>
      ev :: if step_succeeds env before ev
            then follow env (before ++ [ev]) rest
            else []
  end.

(** The formation a read gets; the empty one when the read fails. *)
Definition read_or_empty (env : Env) (before : list event) (h : Heroku)
  : Py.dict :=
  match formation_read env before h with
  | Some F => F
  | None => []
  end.

Definition plan_until_upgrade (h : Heroku) (F : Py.dict) : list event :=
  [ Subprocess (current_cmd h);
    Http (maintenance_request h true);
    Http (formation_request h);
    Http (scale_request h (zeros F));
    Sleep 30;
    Subprocess (upgrade_cmd h) ].

(** [scale_up] reads the formation again when the one it has is empty. *)
Definition second_read (h : Heroku) (F : Py.dict) : list event :=
  match F with
  | [] => [Http (formation_request h)]
  | _ :: _ => []
  end.

Definition plan_after_upgrade (h : Heroku) (F' : Py.dict) : list event :=
  [ Http (scale_request h (Py.items F'));
    Sleep 30;
    Http (maintenance_request h false) ].

(** The formation the first read gets in the world [env]. *)
Definition first_formation (env : Env) (h : Heroku) : Py.dict :=
  read_or_empty env
    [Subprocess (current_cmd h); Http (maintenance_request h true)] h.

(** The formation [scale_up] works with: the first one, or what a second
    read gets when the first one is empty. *)
Definition last_formation (env : Env) (h : Heroku) : Py.dict :=
  match first_formation env h with
  | [] => read_or_empty env (plan_until_upgrade h []) h
  | x :: F => x :: F
  end.

(** All the steps of a migration in the world [env]. *)
Definition plan (env : Env) (h : Heroku) : list event :=
  (plan_until_upgrade h (first_formation env h)
   ++ second_read h (first_formation env h)
   ++ plan_after_upgrade h (last_formation env h))%list.

(** The status command exits with 0 and prints ["head"]. *)
Definition up_to_date (env : Env) (h : Heroku) : bool :=
  let p := run env [] (current_cmd h) in
  (returncode p =? 0) && Py.contains "head" (stdout p).

Definition expected_trace (env : Env) (h : Heroku) : list event :=
  if up_to_date env h then [Subprocess (current_cmd h)]
  else follow env [] (plan env h).

Definition expected_outcome (env : Env) (t : list event) : outcome unit :=
  if goes_well env [] t then Return tt
  else Raise (exception_at env (removelast t) (last t (Sleep 0))).

(** ** The command line *)

(** An argument that [argparse] takes for a positional one whatever else
    is on the command line: it does not start with a dash. *)
Definition is_plain (a : string) : bool := negb (String.prefix "-" a).

Inductive parsed :=
| Options (app ini section : string)
| SystemExit (status : Z).

(** [parser.parse_args()] for the parser of [main], on the arguments after
    the program name: [app_name], then [ini_file] and [app_section] with
    their defaults; a missing [app_name] or a fourth argument is an error,
    which exits with status 2.  Command lines with an argument that starts
    with a dash ([-h], unknown options, [--]) are left out: [None]. *)
Definition parse_args (argv : list string) : option parsed :=
  if forallb is_plain argv then
    Some match argv with
         | [] => SystemExit 2
         | [a] => Options a "etc/production.ini" "app:main"
         | [a; i] => Options a i "app:main"
         | [a; i; s] => Options a i s
         | _ :: _ :: _ :: _ :: _ => SystemExit 2
         end
  else None.

(** [main()]: the exit status of the process and what it did. *)
Definition main_argv (env : Env) (argv : list string)
  : option (Z * list event) :=
  match parse_args argv with
  | None => None
  | Some (SystemExit status) => Some (status, [])
  | Some (Options a i s) =>
      Some (exit_code (fst (main env a i s)), trace (snd (main env a i s)))
  end.

(** ** Commands and requests on the host *)

(** The header [Authorization] of a request as it is sent.  A session
    that is given no [auth] looks the host of the URL up in [~/.netrc]
    ([trust_env] is on by default) and, when it has an entry, sets the
    header to the basic authentication of that entry, in place of the one
    of the session. *)
Definition authorization_sent (host : Host) (r : Request) : option string :=
  match netrc host (url_host (url r)) with
  | Some (login, password) => Some (basic_auth_str login password)
  | None => header_get "Authorization" (headers r)
  end.

Module Full.

(** [subprocess.check_output(shlex.split(cmd)).decode()].  When the command
    line cannot be split or the program cannot be started, no process runs
    and nothing is recorded; [check_output] raises for an exit status other
    than 0 before anything is decoded. *)
Definition shell (host : Host) (cmd : string) : M string :=
  fun env st =>
    match start host (trace st) cmd with
    | Some e => (Raise e, st)
    | None =>
        let p := run env (trace st) cmd in
        if returncode p =? 0
        then match Py.decode (stdout p) with
             | Some text => (Return text, record (Subprocess cmd) st)
             | None => (Raise UnicodeDecodeError, record (Subprocess cmd) st)
             end
        else (Raise (CalledProcessError (returncode p)),
              record (Subprocess cmd) st)
    end.

(** True if the current alembic branch is not up to date. *)
Definition needs_migrate (host : Host) : M bool :=
  h <- get_self ;;
  cmd <- shell host (current_cmd h) ;;
  ret (negb (Py.contains "head" cmd)).

(** Run alembic migrations; the result is the standard output. *)
Definition alembic (host : Host) : M string :=
  h <- get_self ;;
  shell host (upgrade_cmd h).

(** Run database migration if needed.  The methods that talk to the
    platform API are the ones above: they run no command. *)
Definition migrate (host : Host) : M unit :=
  needed <- needs_migrate host ;;
  if needed then
    set_maintenance true ;;
    scale_down ;;
    sleep 30 ;;
    _ <- alembic host ;;
    scale_up ;;
    sleep 30 ;;
    set_maintenance false
  else
    ret tt.

(** [Heroku(app_name, ini_file, app_section).migrate()] *)
Definition main (host : Host) (env : Env) (app ini section : string)
  : outcome unit * State :=
  migrate host env (mkState (__init__ env app ini section) []).

(** [main()]: the exit status of the process and what it did. *)
Definition main_argv (host : Host) (env : Env) (argv : list string)
  : option (Z * list event) :=
  match parse_args argv with
  | None => None
  | Some (SystemExit status) => Some (status, [])
  | Some (Options a i s) =>
      Some (exit_code (fst (main host env a i s)),
            trace (snd (main host env a i s)))
  end.

(** A step is made when nothing raises before it is: a command, when its
    command line is split and the program started. *)
Definition starts (host : Host) (before : list event) (ev : event) : bool :=
  match ev with
  | Subprocess cmd =>
      match start host before cmd with
      | None => true
      | Some _ => false
      end
  | _ => true
  end.

(** A command succeeds when it is started, exits with 0 and its output is
    valid UTF-8; the other steps are as in [step_succeeds]. *)
Definition step_succeeds (host : Host) (env : Env) (before : list event)
    (ev : event) : bool :=
  match ev with
  | Subprocess cmd =>
      let p := run env before cmd in
      starts host before ev && (returncode p =? 0) && Py.utf8 (stdout p)
  | _ => step_succeeds env before ev
  end.

(** The exception of a step that does not succeed. *)
Definition exception_at (host : Host) (env : Env) (before : list event)
    (ev : event) : exn :=
  match ev with
  | Subprocess cmd =>
      match start host before cmd with
      | Some e => e
      | None =>
          let p := run env before cmd in
          if returncode p =? 0 then UnicodeDecodeError
          else CalledProcessError (returncode p)
      end
  | _ => exception_at env before ev
  end.

(** The steps of [steps] that are made when each is made only after the
    one before it has succeeded: [steps] up to the first step that does not
    succeed, that step included if it is made at all. *)
Fixpoint follow (host : Host) (env : Env) (before steps : list event)
  : list event :=
  match steps with
  | [] => []
  | ev :: rest =>
      if step_succeeds host env before ev
      then ev :: follow host env (before ++ [ev]) rest
      else if starts host before ev then [ev] else []
  end.

(** Every step of [steps] succeeds when made after [before] and the steps
    that precede it. *)
Fixpoint goes_well (host : Host) (env : Env) (before steps : list event)
  : bool :=
  match steps with
  | [] => true
  | ev :: rest =>
      step_succeeds host env before ev
      && goes_well host env (before ++ [ev]) rest
  end.

(** How a run that follows [steps] ends: with the exception of the first
    step that does not succeed, if there is one. *)
Fixpoint verdict (host : Host) (env : Env) (before steps : list event)
  : outcome unit :=
  match steps with
  | [] => Return tt
  | ev :: rest =>
      if step_succeeds host env before ev
      then verdict host env (before ++ [ev]) rest
      else Raise (exception_at host env before ev)
  end.

(** The status command succeeds and prints ["head"]. *)
Definition up_to_date (host : Host) (env : Env) (h : Heroku) : bool :=
  step_succeeds host env [] (Subprocess (current_cmd h))
  && Py.contains "head" (stdout (run env [] (current_cmd h))).

End Full.

(** Every non-200 status that is not an error status, on a JSON body, read
    as 200: the world [env] with the answers of the remote changed in
    this way. *)
Definition as_200 (res : Response) : Response :=
  match rejection res with
  | None => mkResponse 200 (content res)
  | Some _ => res
  end.

Definition lenient (env : Env) : Env :=
  mkEnv (environ env) (default_headers env)
    (fun t r => match send env t r with
                | inl e => inl e
                | inr res => inr (as_200 res)
                end)
    (run env).

(** * Proofs *)

#[local] Arguments current_cmd : simpl never.
#[local] Arguments upgrade_cmd : simpl never.
#[local] Arguments formation_url : simpl never.
#[local] Arguments app_url : simpl never.

(** ** Strings, dicts and headers *)




Lemma append_cancel (a b c : string) : a ++ b = a ++ c -> b = c.
Proof. induction a; cbn; intros H; [assumption | injection H; auto]. Qed.

Lemma current_is_not_upgrade (h : Heroku) : current_cmd h <> upgrade_cmd h.
Proof.
  unfold current_cmd, upgrade_cmd. intros H.
  repeat (apply append_cancel in H). discriminate.
Qed.

Lemma setitem_keys_fresh (k : string) (v : Z) (d : Py.dict) :
  ~ In k (Py.keys d) -> Py.setitem k v d = (d ++ [(k, v)])%list.
Proof.
  induction d as [|[k' v'] d IH]; cbn; intros H; [reflexivity|].
  destruct (String.eqb_spec k k') as [->|_]; [tauto|].
  rewrite IH; tauto.
Qed.

(** A dict goes through [items] and a dict comprehension unchanged: a
    platform that reads the updates of a scale request as a mapping reads
    the formation they were built from. *)
Lemma dict_comprehension_items (d : Py.dict) :
  NoDup (Py.keys d) -> Py.dict_comprehension (Py.items d) = d.
Proof.
  unfold Py.dict_comprehension, Py.items.
  enough (G : forall acc,
             NoDup (Py.keys (acc ++ d)%list) ->
             fold_left (fun d0 x => Py.setitem (fst x) (snd x) d0) d acc
             = (acc ++ d)%list) by (apply (G [])).
  induction d as [|[k v] d IH]; intros acc H; cbn.
  - rewrite app_nil_r. reflexivity.
  - change ((k, v) :: d) with ([(k, v)] ++ d)%list in *.
    rewrite app_assoc in *. rewrite <- IH by assumption.
    f_equal. apply setitem_keys_fresh.
    unfold Py.keys in *. rewrite !map_app in H. cbn in H.
    apply NoDup_app_remove_r in H.
    apply NoDup_remove_2 in H. rewrite app_nil_r in H. exact H.
Qed.

Lemma setitem_keys_NoDup (k : string) (v : Z) (d : Py.dict) :
  NoDup (Py.keys d) -> NoDup (Py.keys (Py.setitem k v d)).
Proof.
  intros H. destruct (in_dec string_dec k (Py.keys d)) as [Hin|Hout].
  - enough (E : Py.keys (Py.setitem k v d) = Py.keys d) by (rewrite E; exact H).
    clear H. induction d as [|[k' v'] d IH]; [destruct Hin|]. cbn.
    destruct (String.eqb_spec k k') as [->|Hk]; [reflexivity|].
    cbn. f_equal. apply IH. cbn in Hin. destruct Hin; [congruence | assumption].
  - rewrite setitem_keys_fresh by assumption.
    unfold Py.keys in *. rewrite map_app. cbn.
    apply NoDup_rev in H. rewrite <- (rev_involutive (_ ++ _)%list).
    apply NoDup_rev. rewrite rev_app_distr. cbn. constructor; [|exact H].
    rewrite <- in_rev. exact Hout.
Qed.

Lemma dict_comprehension_NoDup (xs : list (string * Z)) :
  NoDup (Py.keys (Py.dict_comprehension xs)).
Proof.
  unfold Py.dict_comprehension.
  enough (G : forall acc, NoDup (Py.keys acc) ->
             NoDup (Py.keys (fold_left
               (fun d x => Py.setitem (fst x) (snd x) d) xs acc)))
    by (apply G; constructor).
  induction xs as [|x xs IH]; intros acc H; cbn; [exact H|].
  apply IH, setitem_keys_NoDup, H.
Qed.

Lemma same_name_refl (k : string) : same_name k k = true.
Proof. apply String.eqb_refl. Qed.

Lemma header_get_set (k v : string) (h : Headers) :
  header_get k (header_set k v h) = Some v.
Proof.
  induction h as [|[k' v'] h IH]; cbn.
  - rewrite same_name_refl. reflexivity.
  - destruct (same_name k k') eqn:E; cbn.
    + rewrite same_name_refl. reflexivity.
    + rewrite E. exact IH.
Qed.

Lemma header_get_set_other (k k' v : string) (h : Headers) :
  same_name k k' = false ->
  header_get k (header_set k' v h) = header_get k h.
Proof.
  intros Hk. induction h as [|[k2 v2] h IH]; cbn.
  - rewrite Hk. reflexivity.
  - destruct (same_name k' k2) eqn:E; cbn.
    + rewrite Hk. unfold same_name in *.
      apply String.eqb_eq in E. rewrite <- E, Hk. reflexivity.
    + rewrite IH. reflexivity.
Qed.

(** ** Rules for triples *)

Section Rules.
Context {A B : Type} (env : Env).

Lemma triple_ret (P : State -> Prop) (a : A) Q E :
  (forall st, P st -> Q a st) -> triple env P (ret a) Q E.
Proof. intros H st HP. cbn. auto. Qed.

Lemma triple_bind (P : State -> Prop) (m : M A) (k : A -> M B) R Q E :
  triple env P m R E ->
  (forall a, triple env (R a) (k a) Q E) ->
  triple env P (bind m k) Q E.
Proof.
  intros Hm Hk st HP. unfold bind. specialize (Hm st HP).
  destruct (m env st) as [[a|e] st']; [apply Hk|]; assumption.
Qed.

(** A method that leaves the trace as it is keeps every assertion that
    only reads the trace. *)
Lemma triple_quiet (I : list event -> Prop) (J : exn -> list event -> Prop)
    (m : M A) :
  (forall e t, I t -> J e t) ->
  (forall st, trace (snd (m env st)) = trace st) ->
  triple env (fun st => I (trace st)) m
    (fun _ st => I (trace st)) (fun e st => J e (trace st)).
Proof.
  intros HIJ H st HI. specialize (H st).
  destruct (m env st) as [[a|e] st']; cbn in H; rewrite H; auto.
Qed.
End Rules.

Lemma res_json_quiet env res st :
  snd (res_json res env st) = st.
Proof. unfold res_json. destruct (content res); reflexivity. Qed.

Lemma each_type_quantity_quiet env b st :
  snd (each_type_quantity b env st) = st.
Proof. destruct b; reflexivity. Qed.

(** ** What each method does, as one equation *)

Lemma parse_response_eq res env st :
  parse_response res env st =
  match rejection res with
  | None => (Return true, st)
  | Some e => (Raise e, st)
  end.
Proof.
  unfold parse_response, rejection, bind, res_json, raise_for_status, ret,
    raise.
  destruct (status_code res =? 200) eqn:E200; cbn.
  - apply Z.eqb_eq in E200. rewrite E200. reflexivity.
  - destruct (content res); cbn; try reflexivity;
      destruct (is_error_status (status_code res)); reflexivity.
Qed.

(** The part of [formation], [scale_down] and [scale_up] that checks a
    response and reads its list. *)
Lemma listing_eq {A} res (k : list (string * Z) -> M A) env st :
  (parse_response res ;;
   b <- res_json res ;; xs <- each_type_quantity b ;; k xs) env st =
  match listing res with
  | inl e => (Raise e, st)
  | inr xs => k xs env st
  end.
Proof.
  unfold bind at 1. rewrite parse_response_eq. unfold listing.
  destruct (rejection res); [reflexivity|].
  unfold bind, res_json. destruct (content res); reflexivity.
Qed.

Lemma shell_eq cmd env st :
  shell cmd env st =
  (let p := run env (trace st) cmd in
   if returncode p =? 0 then Return (stdout p)
   else Raise (CalledProcessError (returncode p)),
   record (Subprocess cmd) st).
Proof. unfold shell. cbv zeta. destruct (returncode _ =? 0); reflexivity. Qed.

Lemma needs_migrate_eq env st :
  needs_migrate env st =
  (let p := run env (trace st) (current_cmd (self st)) in
   if returncode p =? 0 then Return (negb (Py.contains "head" (stdout p)))
   else Raise (CalledProcessError (returncode p)),
   record (Subprocess (current_cmd (self st))) st).
Proof.
  unfold needs_migrate, bind, get_self. rewrite shell_eq. cbv zeta.
  destruct (returncode _ =? 0); reflexivity.
Qed.

Lemma alembic_eq env st :
  alembic env st =
  (let p := run env (trace st) (upgrade_cmd (self st)) in
   if returncode p =? 0 then Return (stdout p)
   else Raise (CalledProcessError (returncode p)),
   record (Subprocess (upgrade_cmd (self st))) st).
Proof. unfold alembic, bind, get_self. apply shell_eq. Qed.

Lemma set_maintenance_eq state env st :
  set_maintenance state env st =
  (match send env (trace st) (maintenance_request (self st) state) with
   | inl e => Raise e
   | inr res => match rejection res with
                | Some e => Raise e
                | None => Return tt
                end
   end,
   record (Http (maintenance_request (self st) state)) st).
Proof.
  unfold set_maintenance, bind, get_self, session_request.
  fold (maintenance_request (self st) state).
  destruct (send env (trace st) _) as [e|res]; [reflexivity|].
  rewrite parse_response_eq. destruct (rejection res); reflexivity.
Qed.

Lemma formation_eq env st :
  formation env st =
  match _formation (self st) with
  | Some (x :: d) => (Return (x :: d), st)
  | _ =>
      let r := formation_request (self st) in
      match send env (trace st) r with
      | inl e => (Raise e, record (Http r) st)
      | inr res =>
          match listing res with
          | inl e => (Raise e, record (Http r) st)
          | inr xs =>
              let F := Py.dict_comprehension xs in
              (Return F, mkState (with_formation (self st) F)
                                 (trace st ++ [Http r]))
          end
      end
  end.
Proof.
  unfold formation. unfold bind at 1, get_self.
  destruct (_formation (self st)) as [[|x d]|]; try reflexivity;
    unfold bind at 1, session_request;
    fold (formation_request (self st)); cbv zeta;
    (destruct (send env (trace st) _) as [e|res]; [reflexivity|]);
    rewrite listing_eq; destruct (listing res); reflexivity.
Qed.

Lemma send_scale_eq us env st :
  send_scale us env st =
  (match send env (trace st) (scale_request (self st) us) with
   | inl e => Raise e
   | inr res => match listing res with
                | inl e => Raise e
                | inr _ => Return tt
                end
   end,
   record (Http (scale_request (self st) us)) st).
Proof.
  unfold send_scale. unfold bind at 1, get_self.
  unfold bind at 1, session_request. fold (scale_request (self st) us).
  destruct (send env (trace st) _) as [e|res]; [reflexivity|].
  rewrite listing_eq. destruct (listing res); reflexivity.
Qed.

Lemma scale_down_eq env st :
  scale_down env st = (F <- formation ;; send_scale (zeros F)) env st.
Proof. reflexivity. Qed.

Lemma scale_up_eq env st :
  scale_up env st = (F <- formation ;; send_scale (Py.items F)) env st.
Proof.
  unfold scale_up, send_scale, Py.items, bind.
  destruct (formation env st) as [[F|e] st1]; [|reflexivity].
  replace (map (fun ts : string * Z => (fst ts, snd ts)) F) with F;
    [reflexivity|].
  induction F as [|[t s] F IH]; cbn; congruence.
Qed.

(** ** A failed step is the last step *)

Lemma snoc_split {X} (t pre post : list X) (e ev : X) :
  (t ++ [e] = pre ++ ev :: post)%list ->
  (post = [] /\ pre = t /\ ev = e) \/
  (exists post', post = (post' ++ [e])%list /\ t = (pre ++ ev :: post')%list).
Proof.
  destruct post as [|x post _] using rev_ind; intros H.
  - left. apply app_inj_tail in H. destruct H; subst; auto.
  - right. exists post.
    rewrite app_comm_cons, app_assoc in H.
    apply app_inj_tail in H. destruct H; subst; auto.
Qed.

Lemma no_failure_nil env : no_failure env [].
Proof. intros [|] ? ? H; discriminate. Qed.

Lemma no_failure_snoc env t ev :
  no_failure env t -> failed env t ev = false -> no_failure env (t ++ [ev]).
Proof.
  intros Ht Hev pre ev' post H.
  destruct (snoc_split _ _ _ _ _ H) as [(-> & -> & ->)|(post' & -> & ->)].
  - assumption.
  - eapply Ht. reflexivity.
Qed.

Lemma no_failure_stopped env t x : no_failure env t -> stopped_by env x t.
Proof. intros Ht pre ev post H F. rewrite (Ht _ _ _ H) in F. discriminate. Qed.

Lemma stopped_snoc env t ev x :
  no_failure env t -> (failed env t ev = true -> raised_by env t ev x) ->
  stopped_by env x (t ++ [ev]).
Proof.
  intros Ht Hev pre ev' post H F.
  destruct (snoc_split _ _ _ _ _ H) as [(-> & -> & ->)|(post' & -> & ->)].
  - auto.
  - rewrite (Ht _ _ _ eq_refl) in F. discriminate.
Qed.

Lemma careful_quiet {A} env (m : M A) :
  (forall st, trace (snd (m env st)) = trace st) -> careful env m.
Proof.
  intros H. apply (triple_quiet env (no_failure env) (stopped_by env));
    [|exact H].
  intros e t. apply no_failure_stopped.
Qed.

Lemma careful_bind {A B} env (m : M A) (k : A -> M B) :
  careful env m -> (forall a, careful env (k a)) -> careful env (bind m k).
Proof. intros Hm Hk. eapply triple_bind; [exact Hm | exact Hk]. Qed.

Lemma session_request_answered env m u j :
  triple env (sound env) (session_request m u j) (answered env) (halted env).
Proof.
  intros st Hs. unfold session_request.
  destruct (send env (trace st) _) as [e|res] eqn:E; cbn.
  - apply stopped_snoc; [exact Hs|]. cbn. rewrite E. reflexivity.
  - eexists (trace st), _. split; [reflexivity|]. split; [exact Hs | exact E].
Qed.

Lemma parse_response_answered env res :
  triple env (answered env res) (parse_response res)
    (fun _ => sound env) (halted env).
Proof.
  intros st (t & r & Ht & Hn & Hs). rewrite parse_response_eq.
  destruct (rejection res) as [e|] eqn:E; unfold sound, halted; rewrite Ht.
  - apply stopped_snoc; [exact Hn|]. cbn. rewrite Hs. auto.
  - apply no_failure_snoc; [exact Hn|]. cbn. rewrite Hs, E. reflexivity.
Qed.

(** A request followed by [parse_response], as every API method has it. *)
Lemma checked_request_careful {B} env m u j (k : Response -> bool -> M B) :
  (forall res ok, careful env (k res ok)) ->
  careful env
    (res <- session_request m u j ;; ok <- parse_response res ;; k res ok).
Proof.
  intros Hk. eapply triple_bind; [apply session_request_answered|].
  intros res. eapply triple_bind; [apply parse_response_answered|]. apply Hk.
Qed.

Lemma shell_careful env cmd : careful env (shell cmd).
Proof.
  intros st Hs. unfold shell.
  destruct (returncode _ =? 0) eqn:E; cbn.
  - apply no_failure_snoc; [exact Hs|]. cbn. rewrite E. reflexivity.
  - apply stopped_snoc; [exact Hs|]. cbn. auto.
Qed.

Lemma sleep_careful env n : careful env (sleep n).
Proof. intros st Hs. cbn. apply no_failure_snoc; [exact Hs | reflexivity]. Qed.

Lemma res_json_careful env res : careful env (res_json res).
Proof. apply careful_quiet. intros st. rewrite res_json_quiet. reflexivity. Qed.

Lemma each_type_quantity_careful env b : careful env (each_type_quantity b).
Proof.
  apply careful_quiet. intros st. rewrite each_type_quantity_quiet. reflexivity.
Qed.

Create HintDb careful discriminated.
#[local] Hint Resolve shell_careful sleep_careful res_json_careful
  each_type_quantity_careful : careful.

Ltac careful_step :=
  first
    [ solve [auto with careful]
    | apply checked_request_careful; intros
    | apply careful_bind; [|intros]
    | apply careful_quiet; intros; reflexivity
    | match goal with
      | |- careful _ (match ?x with _ => _ end) => destruct x
      end ].

Lemma formation_careful env : careful env formation.
Proof. unfold formation. repeat careful_step. Qed.
#[local] Hint Resolve formation_careful : careful.

Lemma scale_down_careful env : careful env scale_down.
Proof. unfold scale_down. repeat careful_step. Qed.

Lemma scale_up_careful env : careful env scale_up.
Proof. unfold scale_up. repeat careful_step. Qed.

Lemma set_maintenance_careful env state : careful env (set_maintenance state).
Proof. unfold set_maintenance. repeat careful_step. Qed.

Lemma needs_migrate_careful env : careful env needs_migrate.
Proof. unfold needs_migrate. repeat careful_step. Qed.

Lemma alembic_careful env : careful env alembic.
Proof. unfold alembic. repeat careful_step. Qed.

#[local] Hint Resolve scale_down_careful scale_up_careful
  set_maintenance_careful needs_migrate_careful alembic_careful : careful.

Lemma migrate_careful env : careful env migrate.
Proof. unfold migrate. repeat careful_step. Qed.

(** In every run, a step that fails is the last one and its exception is
    the outcome of the run. *)
Lemma main_stops_at_failure env app ini section pre ev post :
  trace (snd (main env app ini section)) = (pre ++ ev :: post)%list ->
  failed env pre ev = true ->
  post = [] /\
  exists x, fst (main env app ini section) = Raise x /\ raised_by env pre ev x.
Proof.
  unfold main. intros Ht Hf.
  pose proof (migrate_careful env (mkState (__init__ env app ini section) [])
                (no_failure_nil env)) as H.
  destruct (migrate env _) as [[[]|x] st]; cbn in *.
  - rewrite (H _ _ _ Ht) in Hf. discriminate.
  - destruct (H _ _ _ Ht Hf) as [-> Hx]. eauto.
Qed.

(** ** A run continues its trace with requests of its own session *)

Lemma extends_refl st : extends st st.
Proof.
  do 4 (split; [reflexivity|]).
  exists []. rewrite app_nil_r. split; [reflexivity | constructor].
Qed.

Lemma extends_record st0 st ev :
  extends st0 st -> sent_by (self st) ev -> extends st0 (record ev st).
Proof.
  intros (Ha & Hi & Hs & Hh & more & Ht & Hm) Hev.
  unfold record, extends. cbn.
  do 4 (split; [assumption|]).
  exists (more ++ [ev])%list. rewrite Ht, app_assoc. split; [reflexivity|].
  apply Forall_app. split; [exact Hm|]. constructor; [|constructor].
  destruct ev; cbn in *; congruence.
Qed.

Lemma continues_silent {A} env st0 (m : M A) :
  (forall st, snd (m env st) = st) -> continues env st0 m.
Proof.
  intros H st Hst. specialize (H st).
  destruct (m env st) as [[a|e] st']; cbn in H; subst; exact Hst.
Qed.

Lemma continues_bind {A B} env st0 (m : M A) (k : A -> M B) :
  continues env st0 m -> (forall a, continues env st0 (k a)) ->
  continues env st0 (bind m k).
Proof. intros Hm Hk. eapply triple_bind; [exact Hm | exact Hk]. Qed.

Lemma session_request_continues env st0 m u j :
  continues env st0 (session_request m u j).
Proof.
  intros st Hst. unfold session_request.
  destruct (send env (trace st) _); apply extends_record; auto; reflexivity.
Qed.

Lemma shell_continues env st0 cmd : continues env st0 (shell cmd).
Proof.
  intros st Hst. unfold shell.
  destruct (returncode _ =? 0); apply extends_record; auto; exact I.
Qed.

Lemma sleep_continues env st0 n : continues env st0 (sleep n).
Proof. intros st Hst. apply extends_record; auto; exact I. Qed.

Lemma set_formation_attr_continues env st0 d :
  continues env st0 (set_formation_attr d).
Proof. intros st Hst. exact Hst. Qed.

Lemma parse_response_continues env st0 res :
  continues env st0 (parse_response res).
Proof.
  apply continues_silent. intros st. rewrite parse_response_eq.
  destruct (rejection res); reflexivity.
Qed.

Lemma res_json_continues env st0 res : continues env st0 (res_json res).
Proof. apply continues_silent. intros st. apply res_json_quiet. Qed.

Lemma each_type_quantity_continues env st0 b :
  continues env st0 (each_type_quantity b).
Proof. apply continues_silent. intros st. apply each_type_quantity_quiet. Qed.

Create HintDb continues discriminated.
#[local] Hint Resolve session_request_continues shell_continues
  sleep_continues set_formation_attr_continues parse_response_continues
  res_json_continues each_type_quantity_continues : continues.

Ltac continues_step :=
  first
    [ solve [auto with continues]
    | apply continues_bind; [|intros]
    | apply continues_silent; intros; reflexivity
    | match goal with
      | |- continues _ _ (match ?x with _ => _ end) => destruct x
      end ].

Lemma formation_continues env st0 : continues env st0 formation.
Proof. unfold formation. repeat continues_step. Qed.
#[local] Hint Resolve formation_continues : continues.

Lemma scale_down_continues env st0 : continues env st0 scale_down.
Proof. unfold scale_down. repeat continues_step. Qed.

Lemma scale_up_continues env st0 : continues env st0 scale_up.
Proof. unfold scale_up. repeat continues_step. Qed.

Lemma set_maintenance_continues env st0 state :
  continues env st0 (set_maintenance state).
Proof. unfold set_maintenance. repeat continues_step. Qed.

Lemma needs_migrate_continues env st0 : continues env st0 needs_migrate.
Proof. unfold needs_migrate. repeat continues_step. Qed.

Lemma alembic_continues env st0 : continues env st0 alembic.
Proof. unfold alembic. repeat continues_step. Qed.

#[local] Hint Resolve scale_down_continues scale_up_continues
  set_maintenance_continues needs_migrate_continues alembic_continues
  : continues.

Lemma migrate_continues env st0 : continues env st0 migrate.
Proof. unfold migrate. repeat continues_step. Qed.

(** Whatever a method does, the state it ends in extends the one it
    started from. *)
Lemma continues_extends {A} env (m : M A) st :
  continues env st m -> extends st (snd (m env st)).
Proof.
  intros H. specialize (H st (extends_refl st)).
  destruct (m env st) as [[a|e] st']; exact H.
Qed.

(** ** The status check *)

Lemma migrate_eq env st :
  migrate env st =
  match needs_migrate env st with
  | (Return true, st1) =>
      (set_maintenance true ;; scale_down ;; sleep 30 ;; _ <- alembic ;;
       scale_up ;; sleep 30 ;; set_maintenance false) env st1
  | (Return false, st1) => (Return tt, st1)
  | (Raise e, st1) => (Raise e, st1)
  end.
Proof.
  unfold migrate. unfold bind at 1.
  destruct (needs_migrate env st) as [[[|]|e] st1]; reflexivity.
Qed.





(** C6. When the status command itself exits with a status other than 0,
    the run consists of that command alone and ends with the
    [CalledProcessError]: no request at all is sent to the platform API, so
    the remote app is as it was found. *)
Theorem status_check_failure_aborts env app ini section :
  let h := __init__ env app ini section in
  let p := run env [] (current_cmd h) in
  returncode p <> 0 ->
  main env app ini section
  = (Raise (CalledProcessError (returncode p)),
     mkState h [Subprocess (current_cmd h)]) /\
  api_calls (trace (snd (main env app ini section))) = [] /\
  exit_code (fst (main env app ini section)) = 1.
Proof.
  intros h p Hp.
  assert (E : main env app ini section
              = (Raise (CalledProcessError (returncode p)),
                 mkState h [Subprocess (current_cmd h)])).
  { unfold main. fold h. rewrite migrate_eq, needs_migrate_eq.
    cbn [self trace]. fold p. cbv zeta.
    apply Z.eqb_neq in Hp. rewrite Hp. reflexivity. }
  rewrite E. repeat split.
Qed.

Lemma status_check_failure_aborts_witness :
  let env := Scenario.world (Scenario.remote 200 Scenario.web2_worker1)
               (Scenario.commands Scenario.crashed Scenario.upgraded) in
  fst (main env Scenario.app Scenario.ini Scenario.section)
  = Raise (CalledProcessError 1) /\
  api_calls (trace (snd (main env Scenario.app Scenario.ini Scenario.section)))
  = [].
Proof.
  intros env.
  destruct (status_check_failure_aborts env Scenario.app Scenario.ini
              Scenario.section) as (Hrun & Hcalls & _).
  - cbn. discriminate.
  - split; [rewrite Hrun; reflexivity | exact Hcalls].
Defined.

(** ** Steps that succeed *)

Lemma needs_migrate_ok env st :
  step_succeeds env (trace st) (Subprocess (current_cmd (self st))) = true ->
  needs_migrate env st
  = (Return (negb (Py.contains "head"
                     (stdout (run env (trace st) (current_cmd (self st)))))),
     record (Subprocess (current_cmd (self st))) st).
Proof.
  intros H. rewrite needs_migrate_eq. cbn [step_succeeds] in H. cbv zeta.
  rewrite H. reflexivity.
Qed.

Lemma alembic_ok env st :
  step_succeeds env (trace st) (Subprocess (upgrade_cmd (self st))) = true ->
  alembic env st
  = (Return (stdout (run env (trace st) (upgrade_cmd (self st)))),
     record (Subprocess (upgrade_cmd (self st))) st).
Proof.
  intros H. rewrite alembic_eq. cbn [step_succeeds] in H. cbv zeta.
  rewrite H. reflexivity.
Qed.

Lemma set_maintenance_ok env st state :
  step_succeeds env (trace st) (Http (maintenance_request (self st) state))
  = true ->
  set_maintenance state env st
  = (Return tt, record (Http (maintenance_request (self st) state)) st).
Proof.
  intros H. rewrite set_maintenance_eq. unfold step_succeeds in H.
  destruct (send env (trace st) _) as [e|res]; [discriminate|].
  cbn [json maintenance_request] in H.
  destruct (rejection res); [discriminate | reflexivity].
Qed.

Lemma send_scale_ok env st us :
  step_succeeds env (trace st) (Http (scale_request (self st) us)) = true ->
  send_scale us env st
  = (Return tt, record (Http (scale_request (self st) us)) st).
Proof.
  intros H. rewrite send_scale_eq. unfold step_succeeds in H.
  destruct (send env (trace st) _) as [e|res]; [discriminate|].
  cbn [json scale_request] in H.
  destruct (listing res); [discriminate | reflexivity].
Qed.

Lemma formation_fetched env st F :
  Py.truthy (_formation (self st)) = false ->
  formation_read env (trace st) (self st) = Some F ->
  formation env st
  = (Return F, mkState (with_formation (self st) F)
                       (trace st ++ [Http (formation_request (self st))])).
Proof.
  intros Hc H. rewrite formation_eq. unfold formation_read in H.
  destruct (_formation (self st)) as [[|x d]|]; try discriminate; cbv zeta;
    (destruct (send env (trace st) _) as [e|res]; [discriminate|]);
    (destruct (listing res); [discriminate|]); congruence.
Qed.

Lemma formation_cached env st F :
  _formation (self st) = Some F -> F <> [] ->
  formation env st = (Return F, st).
Proof.
  intros H HF. rewrite formation_eq, H. destruct F; [congruence | reflexivity].
Qed.

Ltac state_norm := unfold record; cbn [self trace List.app fst snd].


(** ** The sequence of a migration *)

(** C1, as the specification has it, fails: for the formation
    [{web: 2, worker: 1}] and a status check that asks for a migration, the
    run succeeds, but its calls after the status check are not the
    specified sequence, which starts with the formation read; the first
    request is PATCH maintenance=true and the read comes second. *)
Lemma specified_sequence_refuted :
  let env := Scenario.world (Scenario.remote 200 Scenario.web2_worker1)
               (Scenario.commands Scenario.pending Scenario.upgraded) in
  let result := main env Scenario.app Scenario.ini Scenario.section in
  fst (needs_migrate env (mkState Scenario.client [])) = Return true /\
  fst result = Return tt /\
  tl (trace (snd result))
  <> specified_sequence Scenario.client Scenario.web2_worker1 /\
  firstn 2 (api_calls (trace (snd result)))
  = [maintenance_request Scenario.client true;
     formation_request Scenario.client].
Proof.
  cbv zeta. split; [reflexivity|]. split; [reflexivity|].
  split; [|reflexivity].
  vm_compute. intros H. discriminate H.
Qed.

(** ** Failures of API calls and of commands *)





(** C8. For both invocations of the external tool, a nonzero exit status is
    a [CalledProcessError] that reaches the caller: [shell] raises it, so
    do [needs_migrate] (which does not return a migration-needed answer)
    and [alembic], and in every run of [migrate] a command that exits with a
    nonzero status is the last step of the run and its error is the outcome
    of the run. *)
Theorem process_error_propagates env app ini section pre cmd post :
  let result := main env app ini section in
  let rc := returncode (run env pre cmd) in
  trace (snd result) = (pre ++ Subprocess cmd :: post)%list ->
  rc <> 0 ->
  fst result = Raise (CalledProcessError rc) /\
  post = [] /\
  exit_code (fst result) = 1 /\
  forall st, trace st = pre ->
    fst (shell cmd env st) = Raise (CalledProcessError rc) /\
    (current_cmd (self st) = cmd ->
     fst (needs_migrate env st) = Raise (CalledProcessError rc)) /\
    (upgrade_cmd (self st) = cmd ->
     fst (alembic env st) = Raise (CalledProcessError rc)).
Proof.
  intros result rc Ht Hrc.
  assert (Hf : failed env pre (Subprocess cmd) = true).
  { cbn. fold rc. apply Z.eqb_neq in Hrc. rewrite Hrc. reflexivity. }
  destruct (main_stops_at_failure env app ini section pre _ post Ht Hf)
    as (-> & x & Hx & Hby).
  cbn in Hby. fold rc in Hby. subst x. fold result in Hx.
  split; [exact Hx|]. split; [reflexivity|].
  split; [rewrite Hx; reflexivity|].
  apply Z.eqb_neq in Hrc.
  intros st <-. repeat split.
  - rewrite shell_eq. cbv zeta. fold rc. rewrite Hrc. reflexivity.
  - intros <-. rewrite needs_migrate_eq. cbv zeta. fold rc. rewrite Hrc.
    reflexivity.
  - intros <-. rewrite alembic_eq. cbv zeta. fold rc. rewrite Hrc.
    reflexivity.
Qed.

Lemma process_error_propagates_witness :
  let env := Scenario.world (Scenario.remote 200 Scenario.web2_worker1)
               (Scenario.commands Scenario.pending Scenario.crashed) in
  let result := main env Scenario.app Scenario.ini Scenario.section in
  fst result = Raise (CalledProcessError 1) /\
  trace (snd result)
  = firstn 6 (migration_trace Scenario.client Scenario.web2_worker1).
Proof.
  intros env result.
  destruct (process_error_propagates env Scenario.app Scenario.ini
              Scenario.section
              (firstn 5 (migration_trace Scenario.client Scenario.web2_worker1))
              (upgrade_cmd Scenario.client) [] eq_refl)
    as (H & _).
  - cbn. discriminate.
  - split; [exact H | reflexivity].
Defined.

(** ** Response validation *)

Lemma error_status_rejected res :
  400 <= status_code res < 600 ->
  rejection res
  = Some match content res with
         | NotJson => JSONDecodeError
         | _ => HTTPError (status_code res)
         end.
Proof.
  intros H. unfold rejection, is_error_status.
  destruct (Z.eqb_spec (status_code res) 200) as [E|_]; [lia|].
  destruct (content res); try reflexivity;
    destruct (Z.leb_spec 400 (status_code res)); try lia;
    destruct (Z.ltb_spec (status_code res) 500); cbn; try reflexivity;
    destruct (Z.leb_spec 500 (status_code res)); try lia;
    destruct (Z.ltb_spec (status_code res) 600); cbn; try reflexivity; lia.
Qed.

Lemma rejected_listing res x : rejection res = Some x -> listing res = inl x.
Proof. intros H. unfold listing. rewrite H. reflexivity. Qed.

(** C4, as stated, fails: a status other than 200 that is not an error
    status is taken for a success.  With a remote that answers 202 to every
    request, [set_maintenance] returns and the whole run exits with 0. *)
Lemma accepted_status_is_not_fatal :
  let env := Scenario.world (Scenario.remote 202 Scenario.web2_worker1)
               (Scenario.commands Scenario.pending Scenario.upgraded) in
  let st := mkState Scenario.client [] in
  send env [] (maintenance_request Scenario.client true)
  = inr (mkResponse 202 OtherJson) /\
  202 <> 200 /\
  perform (SetMaintenance true) env st
  = (Return tt, record (Http (maintenance_request Scenario.client true)) st) /\
  fst (main env Scenario.app Scenario.ini Scenario.section) = Return tt /\
  exit_code (fst (main env Scenario.app Scenario.ini Scenario.section)) = 0.
Proof. cbv zeta. repeat split; try reflexivity. discriminate. Qed.

(** ** The credential *)

Lemma api_calls_In r t : In r (api_calls t) <-> In (Http r) t.
Proof.
  unfold api_calls. rewrite in_flat_map. split.
  - intros (ev & Hev & Hr). destruct ev; cbn in Hr; try tauto.
    destruct Hr as [->|[]]. exact Hev.
  - intros H. exists (Http r). split; [exact H | left; reflexivity].
Qed.

Lemma init_authorization env app ini section :
  header_get "Authorization" (session (__init__ env app ini section))
  = Some ("Bearer " ++ Py.format_opt (auth_key env)).
Proof.
  unfold __init__, headers_update. cbn [session fold_left fst snd].
  rewrite !header_get_set_other by reflexivity. apply header_get_set.
Qed.

(** ** The cached formation *)

Lemma formation_reads_snoc t ev :
  formation_reads (t ++ [ev])
  = (formation_reads t
     ++ match ev with
        | Http r => if is_get r then [r] else []
        | _ => []
        end)%list.
Proof.
  unfold formation_reads, api_calls. rewrite flat_map_app, filter_app.
  f_equal. destruct ev as [r| |]; cbn; [destruct (is_get r)| |]; reflexivity.
Qed.

Lemma cached_record g st ev :
  cached g st ->
  match ev with Http r => is_get r = false | _ => True end ->
  cached g (record ev st).
Proof.
  intros [Hc Hg] Hev. split; [exact Hc|]. unfold record. cbn [trace].
  rewrite formation_reads_snoc, Hg.
  destruct ev; try apply app_nil_r. rewrite Hev. apply app_nil_r.
Qed.

Lemma keeps_cache_silent {A} env g (m : M A) :
  (forall st, snd (m env st) = st) -> keeps_cache env g m.
Proof.
  intros H st Hst. specialize (H st).
  destruct (m env st) as [[a|e] st']; cbn in H; subst; exact Hst.
Qed.

Lemma keeps_cache_bind {A B} env g (m : M A) (k : A -> M B) :
  keeps_cache env g m -> (forall a, keeps_cache env g (k a)) ->
  keeps_cache env g (bind m k).
Proof. intros Hm Hk. eapply triple_bind; [exact Hm | exact Hk]. Qed.

Lemma patch_keeps_cache env g u j :
  keeps_cache env g (session_request PATCH u j).
Proof.
  intros st Hst. unfold session_request.
  destruct (send env (trace st) _); apply cached_record; auto; reflexivity.
Qed.

Lemma shell_keeps_cache env g cmd : keeps_cache env g (shell cmd).
Proof.
  intros st Hst. unfold shell.
  destruct (returncode _ =? 0); apply cached_record; auto; exact I.
Qed.

Lemma sleep_keeps_cache env g n : keeps_cache env g (sleep n).
Proof. intros st Hst. apply cached_record; auto; exact I. Qed.

Lemma parse_response_keeps_cache env g res :
  keeps_cache env g (parse_response res).
Proof.
  apply keeps_cache_silent. intros st. rewrite parse_response_eq.
  destruct (rejection res); reflexivity.
Qed.

Lemma res_json_keeps_cache env g res : keeps_cache env g (res_json res).
Proof. apply keeps_cache_silent. intros st. apply res_json_quiet. Qed.

Lemma each_type_quantity_keeps_cache env g b :
  keeps_cache env g (each_type_quantity b).
Proof.
  apply keeps_cache_silent. intros st. apply each_type_quantity_quiet.
Qed.

(** A cached formation is returned as it is: no request is sent. *)
Lemma formation_keeps_cache env g : keeps_cache env g formation.
Proof.
  intros st Hst. rewrite formation_eq. destruct Hst as [Hc Hg].
  destruct (_formation (self st)) as [[|x d]|] eqn:E; try discriminate.
  split; [rewrite E; exact Hc | exact Hg].
Qed.

Create HintDb keeps_cache discriminated.
#[local] Hint Resolve patch_keeps_cache shell_keeps_cache sleep_keeps_cache
  parse_response_keeps_cache res_json_keeps_cache
  each_type_quantity_keeps_cache formation_keeps_cache : keeps_cache.

Ltac keeps_cache_step :=
  first
    [ solve [auto with keeps_cache]
    | apply keeps_cache_bind; [|intros]
    | apply keeps_cache_silent; intros; reflexivity ].

Lemma send_scale_keeps_cache env g us : keeps_cache env g (send_scale us).
Proof. unfold send_scale. repeat keeps_cache_step. Qed.

Lemma scale_up_keeps_cache env g : keeps_cache env g scale_up.
Proof. unfold scale_up. repeat keeps_cache_step. Qed.

Lemma set_maintenance_keeps_cache env g state :
  keeps_cache env g (set_maintenance state).
Proof. unfold set_maintenance. repeat keeps_cache_step. Qed.

Lemma alembic_keeps_cache env g : keeps_cache env g alembic.
Proof. unfold alembic. repeat keeps_cache_step. Qed.

#[local] Hint Resolve send_scale_keeps_cache scale_up_keeps_cache
  set_maintenance_keeps_cache alembic_keeps_cache : keeps_cache.

(** X8. With a formation that is not empty, the defect of the cache does
    not show: the formation is read once in the whole run. *)
Lemma nonempty_formation_is_read_once env app ini section F :
  let h := __init__ env app ini section in
  formation_read env
    [Subprocess (current_cmd h); Http (maintenance_request h true)] h
  = Some F ->
  F <> [] ->
  (List.length (formation_reads (trace (snd (main env app ini section))))
   <= 1)%nat.
Proof.
  intros h Hread HF. unfold main. fold h. rewrite migrate_eq, needs_migrate_eq.
  state_norm. cbv zeta.
  destruct (returncode _ =? 0);
    [destruct (Py.contains _ _); cbn [negb]|]; try (cbn; lia).
  unfold bind at 1. rewrite set_maintenance_eq. state_norm.
  destruct (match send env _ _ with inl e => _ | inr _ => _ end) as [[]|x];
    [|cbn; lia].
  unfold bind at 1. rewrite scale_down_eq. unfold bind at 1.
  rewrite (formation_fetched env (mkState h [_; _]) F)
    by (reflexivity || assumption).
  state_norm.
  match goal with
  | |- context [send_scale ?us env ?st] =>
      pose proof (send_scale_keeps_cache env [formation_request h] us st) as K;
      destruct (send_scale us env st) as [[[]|x] st4]
  end.
  - assert (Hst4 : cached [formation_request h] st4).
    { apply K. split; [destruct F; [congruence | reflexivity] | reflexivity]. }
    match goal with
    | |- context [?m env st4] =>
        assert (Km : keeps_cache env [formation_request h] m)
          by (repeat keeps_cache_step);
        specialize (Km st4 Hst4); destruct (m env st4) as [[a|x] st5]
    end; destruct Km as [_ Hg]; cbn [snd]; rewrite Hg; cbn; lia.
  - destruct K as [_ Hg];
      [split; [destruct F; [congruence | reflexivity] | reflexivity]|].
    cbn [snd]. rewrite Hg. cbn. lia.
Qed.

(** With a cached formation [F] that is not empty, the request of
    [scale_up] carries exactly the types and quantities of [F]. *)
Lemma scale_up_sends_cached_formation env st F :
  _formation (self st) = Some F -> F <> [] ->
  trace (snd (scale_up env st))
  = (trace st ++ [Http (scale_request (self st) (Py.items F))])%list.
Proof.
  intros H HF. rewrite scale_up_eq. unfold bind.
  rewrite (formation_cached env st F H HF), send_scale_eq. reflexivity.
Qed.

(** C9, at the input where the code departs from it.  The claim is that
    the formation is fetched at most once per run, the empty mapping
    included.  For an app with no process type the first read gives the
    empty mapping, which [not self._formation] takes for a formation that
    was never read: [scale_up] reads the formation a second time, so the
    run sends two GET requests. *)
Theorem empty_formation_is_read_twice :
  let env := Scenario.world (Scenario.remote 200 [])
               (Scenario.commands Scenario.pending Scenario.upgraded) in
  let h := Scenario.client in
  let result := main env Scenario.app Scenario.ini Scenario.section in
  fst result = Return tt /\
  formation_read env
    [Subprocess (current_cmd h); Http (maintenance_request h true)] h
  = Some [] /\
  formation_reads (trace (snd result))
  = [formation_request h; formation_request h] /\
  trace (snd result)
  = [ Subprocess (current_cmd h);
      Http (maintenance_request h true);
      Http (formation_request h);
      Http (scale_request h []);
      Sleep 30;
      Subprocess (upgrade_cmd h);
      Http (formation_request h);
      Http (scale_request h []);
      Sleep 30;
      Http (maintenance_request h false) ].
Proof. cbv zeta. repeat split; vm_compute; reflexivity. Qed.

(** C2, at the input where the code departs from it.  The claim is that the
    scale-up request carries exactly the formation captured before
    scale-down, the empty mapping included.  When the formation captured
    before scale-down is empty, [scale_up] does not use it: it reads the
    formation again, and with an app that got a [web] process in the
    meantime the scale-up request carries [web=1], which is not the
    captured mapping. *)
Theorem scale_up_after_empty_formation :
  let env := Scenario.world Scenario.growing_remote
               (Scenario.commands Scenario.pending Scenario.upgraded) in
  let h := Scenario.client in
  let result := main env Scenario.app Scenario.ini Scenario.section in
  fst result = Return tt /\
  formation_read env
    [Subprocess (current_cmd h); Http (maintenance_request h true)] h
  = Some [] /\
  filter is_scale (api_calls (trace (snd result)))
  = [scale_request h (zeros []); scale_request h [("web", 1)]] /\
  trace (snd result)
  = [ Subprocess (current_cmd h);
      Http (maintenance_request h true);
      Http (formation_request h);
      Http (scale_request h []);
      Sleep 30;
      Subprocess (upgrade_cmd h);
      Http (formation_request h);
      Http (scale_request h [("web", 1)]);
      Sleep 30;
      Http (maintenance_request h false) ].
Proof. cbv zeta. repeat split; vm_compute; reflexivity. Qed.

(** * More of the code *)

(** ** The steps of a run *)

Lemma needs_migrate_step env st :
  let ev := Subprocess (current_cmd (self st)) in
  needs_migrate env st
  = (if step_succeeds env (trace st) ev
     then Return (negb (Py.contains "head"
                    (stdout (run env (trace st) (current_cmd (self st))))))
     else Raise (exception_at env (trace st) ev),
     record ev st).
Proof. intros ev. rewrite needs_migrate_eq. reflexivity. Qed.

Lemma alembic_step env st :
  let ev := Subprocess (upgrade_cmd (self st)) in
  alembic env st
  = (if step_succeeds env (trace st) ev
     then Return (stdout (run env (trace st) (upgrade_cmd (self st))))
     else Raise (exception_at env (trace st) ev),
     record ev st).
Proof. intros ev. rewrite alembic_eq. reflexivity. Qed.

Lemma set_maintenance_step env st state :
  let ev := Http (maintenance_request (self st) state) in
  set_maintenance state env st
  = (if step_succeeds env (trace st) ev
     then Return tt
     else Raise (exception_at env (trace st) ev),
     record ev st).
Proof.
  intros ev. rewrite set_maintenance_eq. subst ev.
  unfold step_succeeds, exception_at.
  destruct (send env (trace st) _) as [e|res]; [reflexivity|].
  cbn [json maintenance_request]. destruct (rejection res); reflexivity.
Qed.

Lemma send_scale_step env st us :
  let ev := Http (scale_request (self st) us) in
  send_scale us env st
  = (if step_succeeds env (trace st) ev
     then Return tt
     else Raise (exception_at env (trace st) ev),
     record ev st).
Proof.
  intros ev. rewrite send_scale_eq. subst ev.
  unfold step_succeeds, exception_at.
  destruct (send env (trace st) _) as [e|res]; [reflexivity|].
  cbn [json scale_request]. destruct (listing res); reflexivity.
Qed.

Lemma formation_step env st :
  Py.truthy (_formation (self st)) = false ->
  let ev := Http (formation_request (self st)) in
  let F := read_or_empty env (trace st) (self st) in
  formation env st
  = if step_succeeds env (trace st) ev
    then (Return F, mkState (with_formation (self st) F) (trace st ++ [ev]))
    else (Raise (exception_at env (trace st) ev), record ev st).
Proof.
  intros Hc ev F. rewrite formation_eq. subst ev F.
  unfold step_succeeds, exception_at, read_or_empty, formation_read.
  destruct (_formation (self st)) as [[|x d]|]; try discriminate; cbv zeta;
    (destruct (send env (trace st) _) as [e|res]; [reflexivity|]);
    cbn [json formation_request]; destruct (listing res); reflexivity.
Qed.

Lemma scale_request_with_formation h F us :
  scale_request (with_formation h F) us = scale_request h us.
Proof. reflexivity. Qed.
Lemma maintenance_request_with_formation h F b :
  maintenance_request (with_formation h F) b = maintenance_request h b.
Proof. reflexivity. Qed.
Lemma formation_request_with_formation h F :
  formation_request (with_formation h F) = formation_request h.
Proof. reflexivity. Qed.
Lemma upgrade_cmd_with_formation h F :
  upgrade_cmd (with_formation h F) = upgrade_cmd h.
Proof. reflexivity. Qed.

Lemma read_or_empty_with_formation env t h F :
  read_or_empty env t (with_formation h F) = read_or_empty env t h.
Proof. reflexivity. Qed.

Ltac same_object :=
  rewrite ?scale_request_with_formation, ?maintenance_request_with_formation,
    ?formation_request_with_formation, ?upgrade_cmd_with_formation,
    ?read_or_empty_with_formation.

Ltac next_step :=
  unfold record; cbn [self trace List.app fst snd]; same_object.

Ltac plan_norm :=
  unfold plan_until_upgrade, plan_after_upgrade;
  cbn [follow goes_well List.app removelast last andb
       plan_until_upgrade second_read plan_after_upgrade].

Ltac step_case :=
  match goal with
  | |- context [step_succeeds ?env ?t ?ev] =>
      destruct (step_succeeds env t ev) eqn:?
  end.

Ltac use_steps :=
  repeat match goal with
         | H : step_succeeds _ _ _ = _ |- _ => progress (rewrite H)
         end.

Lemma sleep_succeeds env t n : step_succeeds env t (Sleep n) = true.
Proof. reflexivity. Qed.

Ltac finish :=
  intros ->; cbn [fst snd trace];
  repeat (progress (plan_norm; use_steps; rewrite ?sleep_succeeds;
                    cbn [andb]));
  split; reflexivity.

(** Every run is the plan of its world, followed until the first step
    that does not succeed; a status check that finds the schema up to date
    ends the run at once. *)
Lemma main_follows_plan env app ini section :
  let h := __init__ env app ini section in
  let result := main env app ini section in
  trace (snd result) = expected_trace env h /\
  fst result = expected_outcome env (expected_trace env h).
Proof.
  intros h result. subst result.
  remember (main env app ini section) as X eqn:HX. revert HX.
  unfold main. fold h.
  rewrite migrate_eq, needs_migrate_step. next_step.
  unfold expected_trace, expected_outcome, up_to_date, plan. cbv zeta.
  change (returncode (run env [] (current_cmd h)) =? 0)
    with (step_succeeds env [] (Subprocess (current_cmd h))).
  plan_norm. step_case; cbn [andb]; [|finish].
  destruct (Py.contains "head" (stdout (run env [] (current_cmd h))));
    cbn [negb]; [finish|].
  unfold bind at 1. rewrite set_maintenance_step. next_step.
  step_case; [|finish].
  unfold bind at 1. rewrite scale_down_eq. unfold bind at 1.
  rewrite formation_step by reflexivity. next_step.
  change (read_or_empty env _ h) with (first_formation env h).
  step_case; [|finish].
  rewrite send_scale_step. next_step. step_case; [|finish].
  unfold bind at 1. unfold sleep at 1. next_step.
  unfold bind at 1. rewrite alembic_step. next_step. step_case; [|finish].
  unfold bind at 1. rewrite scale_up_eq. unfold bind at 1.
  unfold last_formation.
  destruct (first_formation env h) as [|x F] eqn:EF.
  - rewrite formation_step by reflexivity. next_step.
    plan_norm. step_case; [|finish].
    rewrite send_scale_step. next_step. step_case; [|finish].
    unfold bind at 1. unfold sleep at 1. next_step.
    rewrite set_maintenance_step. next_step. step_case; finish.
  - rewrite (formation_cached env _ (x :: F)) by (reflexivity || discriminate).
    rewrite send_scale_step. next_step. plan_norm. step_case; [|finish].
    unfold bind at 1. unfold sleep at 1. next_step.
    rewrite set_maintenance_step. next_step. step_case; finish.
Qed.

(** ** Following a plan *)

Lemma follow_app env b xs ys :
  follow env b (xs ++ ys)
  = if goes_well env b xs then (xs ++ follow env (b ++ xs) ys)%list
    else follow env b xs.
Proof.
  revert b. induction xs as [|x xs IH]; intros b;
    cbn [follow goes_well List.app].
  - rewrite app_nil_r. reflexivity.
  - destruct (step_succeeds env b x); cbn [andb]; [|reflexivity].
    rewrite IH, <- app_assoc. cbn [List.app].
    destruct (goes_well env (b ++ [x]) xs); reflexivity.
Qed.

Lemma goes_well_app env b xs ys :
  goes_well env b (xs ++ ys)
  = goes_well env b xs && goes_well env (b ++ xs) ys.
Proof.
  revert b. induction xs as [|x xs IH]; intros b; cbn [goes_well List.app].
  - rewrite app_nil_r. reflexivity.
  - rewrite IH, <- app_assoc, andb_assoc. reflexivity.
Qed.



Lemma follow_prefix env b steps :
  exists rest, steps = (follow env b steps ++ rest)%list.
Proof.
  revert b. induction steps as [|x xs IH]; intros b; cbn [follow].
  - exists []. reflexivity.
  - destruct (step_succeeds env b x).
    + destruct (IH (b ++ [x])%list) as [rest H]. exists rest. cbn. congruence.
    + exists xs. reflexivity.
Qed.

Lemma follow_In env b steps ev :
  In ev (follow env b steps) -> In ev steps.
Proof.
  intros H. destruct (follow_prefix env b steps) as [rest E].
  rewrite E. apply in_or_app. left. exact H.
Qed.

Lemma follow_length env b steps :
  (List.length (follow env b steps) <= List.length steps)%nat.
Proof.
  destruct (follow_prefix env b steps) as [rest E].
  rewrite E at 2. rewrite length_app. lia.
Qed.

Lemma follow_removelast env b steps :
  goes_well env b (removelast (follow env b steps)) = true.
Proof.
  revert b. induction steps as [|x xs IH]; intros b; [reflexivity|].
  cbn [follow]. destruct (step_succeeds env b x) eqn:E; [|reflexivity].
  specialize (IH (b ++ [x])%list).
  destruct (follow env (b ++ [x]) xs) as [|y l] eqn:El; [reflexivity|].
  cbn [removelast] in *. cbn [goes_well]. rewrite E. exact IH.
Qed.

Lemma plan_ends_with_maintenance_off env h :
  exists body,
    plan env h = (body ++ [Http (maintenance_request h false)])%list /\
    forall r, In (Http r) body -> disables_maintenance r = false.
Proof.
  exists (plan_until_upgrade h (first_formation env h)
          ++ second_read h (first_formation env h)
          ++ [Http (scale_request h (Py.items (last_formation env h)));
              Sleep 30])%list.
  split.
  - unfold plan, plan_after_upgrade. rewrite <- !app_assoc. reflexivity.
  - intros r Hr. apply in_app_or in Hr. destruct Hr as [Hr|Hr];
      [|apply in_app_or in Hr; destruct Hr as [Hr|Hr]].
    + cbn in Hr. repeat (destruct Hr as [Hr|Hr]; [try discriminate|]);
        try contradiction; injection Hr as <-; reflexivity.
    + destruct (first_formation env h); cbn in Hr; [|contradiction].
      destruct Hr as [Hr|[]]. injection Hr as <-. reflexivity.
    + cbn in Hr. repeat (destruct Hr as [Hr|Hr]; [try discriminate|]);
        try contradiction; injection Hr as <-; reflexivity.
Qed.

(** X4. In every run, a request that disables maintenance is the last step
    of the run and every step before it has succeeded; the run returns
    exactly when that request is accepted.  So a run that fails anywhere
    before never asks to leave maintenance: there is no rollback. *)
Theorem maintenance_is_disabled_last env app ini section pre r post :
  let result := main env app ini section in
  trace (snd result) = (pre ++ Http r :: post)%list ->
  disables_maintenance r = true ->
  post = [] /\
  goes_well env [] pre = true /\
  (fst result = Return tt <-> step_succeeds env pre (Http r) = true).
Proof.
  intros result Ht Hr. set (h := __init__ env app ini section).
  destruct (main_follows_plan env app ini section) as [HT Ho].
  fold h result in HT, Ho. rewrite Ho. rewrite HT in Ht. clear HT Ho.
  unfold expected_trace in *.
  destruct (up_to_date env h).
  { destruct pre as [|? [|? ?]]; discriminate. }
  destruct (plan_ends_with_maintenance_off env h) as (body & Ep & Hbody).
  rewrite Ep in *. rewrite follow_app in Ht |- *.
  destruct (goes_well env [] body) eqn:Eb.
  - cbn [follow List.app] in Ht |- *.
    assert (E : (if step_succeeds env body (Http (maintenance_request h false))
                 then @nil event else []) = [])
      by (destruct step_succeeds; reflexivity).
    rewrite E in *. clear E.
    destruct (snoc_split _ _ _ _ _ Ht) as [(Hp & Hpre & Hev)|(post' & -> & Hb)].
    + subst post pre. injection Hev as ->.
      split; [reflexivity|]. split; [exact Eb|].
      unfold expected_outcome. rewrite goes_well_app, Eb.
      cbn [goes_well andb List.app].
      destruct (step_succeeds env body (Http (maintenance_request h false)));
        cbn [andb]; split; intros H; (reflexivity || discriminate H).
    + exfalso. rewrite (Hbody r) in Hr; [discriminate|].
      rewrite Hb. apply in_or_app. right. left. reflexivity.
  - exfalso. rewrite (Hbody r) in Hr; [discriminate|].
    apply (follow_In env []). rewrite Ht. apply in_or_app. right. left.
    reflexivity.
Qed.

(** X2. In every run, the first request sent to the platform API, if any
    is sent, is the one that enables maintenance: nothing is read or scaled
    on an app that the client has not first asked to put in maintenance. *)
Theorem first_request_enables_maintenance env app ini section :
  let h := __init__ env app ini section in
  let calls := api_calls (trace (snd (main env app ini section))) in
  calls = [] \/ exists rest, calls = maintenance_request h true :: rest.
Proof.
  intros h calls. subst calls.
  destruct (main_follows_plan env app ini section) as [Ht _].
  fold h in Ht. rewrite Ht. unfold expected_trace, plan.
  destruct (up_to_date env h); [left; reflexivity|].
  unfold plan_until_upgrade. cbn [List.app follow].
  destruct (step_succeeds env [] _); [|left; reflexivity].
  right. eexists. cbn. reflexivity.
Qed.

(** X3. In every run in which the upgrade command is run, it is run once,
    and only after the five steps before it in the plan have all succeeded:
    the status check, the request enabling maintenance, the formation read,
    the scale-down request and the sleep of 30. *)
Theorem upgrade_runs_once_after_scale_down env app ini section :
  let h := __init__ env app ini section in
  let t := trace (snd (main env app ini section)) in
  let before := firstn 5 (plan_until_upgrade h (first_formation env h)) in
  In (Subprocess (upgrade_cmd h)) t ->
  goes_well env [] before = true /\
  exists rest,
    t = (before ++ Subprocess (upgrade_cmd h) :: rest)%list /\
    ~ In (Subprocess (upgrade_cmd h)) rest.
Proof.
  intros h t before Hin. subst t.
  destruct (main_follows_plan env app ini section) as [Ht _].
  fold h in Ht. rewrite Ht in *. clear Ht. unfold expected_trace in *.
  destruct (up_to_date env h).
  { destruct Hin as [H|[]]. exfalso. apply (current_is_not_upgrade h).
    congruence. }
  set (rest := (second_read h (first_formation env h)
                ++ plan_after_upgrade h (last_formation env h))%list).
  assert (Ep : plan env h = (before ++ Subprocess (upgrade_cmd h) :: rest)%list)
    by reflexivity.
  assert (Hrest : ~ In (Subprocess (upgrade_cmd h)) rest).
  { subst rest. intros H. apply in_app_or in H. destruct H as [H|H].
    - destruct (first_formation env h); cbn in H; [|contradiction].
      destruct H as [H|[]]. discriminate.
    - cbn in H. repeat (destruct H as [H|H]; [discriminate|]). contradiction. }
  rewrite Ep, follow_app in *.
  destruct (goes_well env [] before) eqn:Eb.
  - split; [reflexivity|]. cbn [follow].
    eexists. split; [reflexivity|].
    destruct (step_succeeds env _ _); [|intros []].
    intros H. apply follow_In in H. exact (Hrest H).
  - exfalso. apply follow_In in Hin. subst before. cbn in Hin.
    repeat (destruct Hin as [Hin|Hin]; [try discriminate|]);
      try contradiction.
    apply (current_is_not_upgrade h). congruence.
Qed.

(** X5. No step is retried: a run makes at most ten steps, at most six of
    them requests to the platform API. *)
Theorem run_is_bounded env app ini section :
  let t := trace (snd (main env app ini section)) in
  (List.length t <= 10)%nat /\ (List.length (api_calls t) <= 6)%nat.
Proof.
  intros t. subst t. set (h := __init__ env app ini section).
  destruct (main_follows_plan env app ini section) as [Ht _].
  fold h in Ht. rewrite Ht. clear Ht. unfold expected_trace.
  destruct (up_to_date env h); [cbn; lia|].
  destruct (follow_prefix env [] (plan env h)) as [rest E].
  assert (Hlen : (List.length (plan env h) <= 10)%nat
                 /\ (List.length (api_calls (plan env h)) <= 6)%nat).
  { unfold plan, api_calls. rewrite !flat_map_app, !length_app.
    destruct (first_formation env h); cbn; lia. }
  rewrite E in Hlen. unfold api_calls in *.
  rewrite flat_map_app, !length_app in Hlen. lia.
Qed.


Lemma step_succeeds_ext env1 env2 t ev :
  (forall t r, send env1 t r = send env2 t r) ->
  (forall t c, returncode (run env1 t c) = returncode (run env2 t c)) ->
  step_succeeds env1 t ev = step_succeeds env2 t ev /\
  exception_at env1 t ev = exception_at env2 t ev.
Proof.
  intros Hs Hr. destruct ev; cbn; rewrite ?Hs, ?Hr; split; reflexivity.
Qed.

(** ** The formation as a dict *)

Lemma getitem_setitem t k v d :
  Py.getitem t (Py.setitem k v d)
  = if String.eqb t k then Some v else Py.getitem t d.
Proof.
  induction d as [|[k' v'] d IH]; cbn; [reflexivity|].
  destruct (String.eqb_spec k k') as [->|Hk]; cbn.
  - destruct (String.eqb t k'); reflexivity.
  - rewrite IH. destruct (String.eqb_spec t k') as [->|_]; [|reflexivity].
    destruct (String.eqb_spec k' k) as [E|_]; [congruence | reflexivity].
Qed.

Lemma getitem_app t d1 d2 :
  Py.getitem t (d1 ++ d2)%list
  = match Py.getitem t d1 with
    | Some v => Some v
    | None => Py.getitem t d2
    end.
Proof.
  induction d1 as [|[k v] d1 IH]; cbn; [reflexivity|].
  destruct (String.eqb t k); [reflexivity | exact IH].
Qed.

(** X10. When the response to a formation read lists a process type more
    than once, the formation keeps the quantity listed last: looking a type
    up in the formation is looking it up in the response read backwards. *)
Theorem formation_keeps_the_last_quantity xs t :
  Py.getitem t (Py.dict_comprehension xs) = Py.getitem t (rev xs).
Proof.
  unfold Py.dict_comprehension.
  enough (G : forall acc,
             Py.getitem t
               (fold_left (fun d x => Py.setitem (fst x) (snd x) d) xs acc)
             = match Py.getitem t (rev xs) with
               | Some v => Some v
               | None => Py.getitem t acc
               end).
  { rewrite G. destruct (Py.getitem t (rev xs)); reflexivity. }
  induction xs as [|[k v] xs IH]; intros acc; cbn [fold_left rev];
    [reflexivity|].
  rewrite IH, getitem_app, getitem_setitem. cbn.
  destruct (Py.getitem t (rev xs)); [reflexivity|].
  destruct (String.eqb t k); reflexivity.
Qed.

Lemma setitem_keys_In t k v d :
  In t (Py.keys (Py.setitem k v d)) <-> t = k \/ In t (Py.keys d).
Proof.
  induction d as [|[k' v'] d IH]; cbn.
  - split; [intros [H|[]]; auto | intros [H|[]]; auto].
  - destruct (String.eqb_spec k k') as [->|Hk]; cbn.
    + split; [intros [H|H]; auto | intros [H|[H|H]]; auto].
    + rewrite IH. split; [intros [H|[H|H]]; auto | intros [H|[H|H]]; auto].
Qed.

Lemma dict_comprehension_keys_In xs t :
  In t (Py.keys (Py.dict_comprehension xs)) <-> In t (map fst xs).
Proof.
  unfold Py.dict_comprehension.
  enough (G : forall acc,
             In t (Py.keys
                     (fold_left (fun d x => Py.setitem (fst x) (snd x) d)
                        xs acc))
             <-> In t (map fst xs) \/ In t (Py.keys acc)).
  { rewrite G. cbn. tauto. }
  induction xs as [|[k v] xs IH]; intros acc; cbn [fold_left map In fst snd].
  - tauto.
  - rewrite IH, setitem_keys_In. split; intros H; intuition congruence.
Qed.

(** X11. The updates of the scale-down request name each process type of
    the response once, whatever the repetitions in the response, and every
    quantity in them is 0. *)
Theorem scale_down_names_each_type_once xs :
  let F := Py.dict_comprehension xs in
  NoDup (map fst (zeros F)) /\
  (forall t, In t (map fst xs) <-> In (t, 0) (zeros F)) /\
  (forall t q, In (t, q) (zeros F) -> q = 0).
Proof.
  intros F. unfold zeros.
  assert (E : map fst (map (fun t : string => (t, 0)) (Py.keys F)) = Py.keys F).
  { rewrite map_map. cbn. apply map_id. }
  rewrite E. split; [apply dict_comprehension_NoDup|]. split.
  - intros t. rewrite <- (dict_comprehension_keys_In xs t). fold F.
    rewrite in_map_iff. split.
    + intros H. exists t. auto.
    + intros (t' & Ht & Hin). congruence.
  - intros t q H. apply in_map_iff in H. destruct H as (t' & Ht & _).
    congruence.
Qed.

(** X12. The updates of the scale-up request name each type once, and read
    back as a mapping they are the cached formation. *)
Theorem scale_up_body_reads_back_as_the_formation xs :
  let F := Py.dict_comprehension xs in
  NoDup (map fst (Py.items F)) /\
  Py.dict_comprehension (Py.items F) = F.
Proof.
  intros F. pose proof (dict_comprehension_NoDup xs) as H. fold F in H.
  split; [exact H|]. apply dict_comprehension_items, H.
Qed.

(** ** The headers of the session *)

Lemma header_get_set_same k k' v h :
  same_name k k' = true -> header_get k (header_set k' v h) = Some v.
Proof.
  intros Hk. induction h as [|[k2 v2] h IH]; cbn.
  - rewrite Hk. reflexivity.
  - destruct (same_name k' k2) eqn:E; cbn.
    + rewrite Hk. reflexivity.
    + assert (E2 : same_name k k2 = false).
      { unfold same_name in *. apply String.eqb_eq in Hk. rewrite Hk.
        exact E. }
      rewrite E2. exact IH.
Qed.

(** X13. Whatever headers a fresh session starts with, the session of the
    client has the three headers of the Heroku API under their names in any
    letter case (a default header of the same name is replaced, not
    duplicated in front), with [Bearer] followed by the secret as
    authorization, and every header of another name is the default one. *)
Theorem session_headers env app ini section :
  let hs := session (__init__ env app ini section) in
  (forall k, same_name k "Authorization" = true ->
     header_get k hs = Some ("Bearer " ++ Py.format_opt (auth_key env))) /\
  (forall k, same_name k "Accept" = true ->
     header_get k hs = Some "application/vnd.heroku+json; version=3") /\
  (forall k, same_name k "Content-Type" = true ->
     header_get k hs = Some "application/json") /\
  (forall k, same_name k "Authorization" = false ->
     same_name k "Accept" = false -> same_name k "Content-Type" = false ->
     header_get k hs = header_get k (default_headers env)).
Proof.
  intros hs. subst hs. unfold __init__, headers_update.
  cbn [session fold_left fst snd].
  assert (Hdiff : forall k a b, same_name k a = true -> same_name a b = false ->
                    same_name k b = false).
  { unfold same_name. intros k a b Ha Hb. apply String.eqb_eq in Ha.
    rewrite Ha. exact Hb. }
  repeat split.
  - intros k Hk.
    rewrite !header_get_set_other by (eapply Hdiff; [exact Hk | reflexivity]).
    apply header_get_set_same, Hk.
  - intros k Hk.
    rewrite header_get_set_other by (eapply Hdiff; [exact Hk | reflexivity]).
    apply header_get_set_same, Hk.
  - intros k Hk. apply header_get_set_same, Hk.
  - intros k H1 H2 H3. rewrite !header_get_set_other by assumption.
    reflexivity.
Qed.

(** ** Responses with status 200 *)

Lemma is_error_status_range code :
  is_error_status code = true <-> 400 <= code < 600.
Proof.
  unfold is_error_status.
  rewrite orb_true_iff, !andb_true_iff, !Z.leb_le, !Z.ltb_lt. lia.
Qed.




(** ** The command line *)

(** X17. With no argument, or with more than three plain arguments, [main]
    exits with status 2 and nothing is run: no command, no request. *)
Theorem main_argv_rejects_wrong_arity env argv :
  forallb is_plain argv = true ->
  (List.length argv = 0 \/ 3 < List.length argv)%nat ->
  main_argv env argv = Some (2, []).
Proof.
  intros Hplain Hlen. unfold main_argv, parse_args. rewrite Hplain.
  destruct argv as [|a [|i [|s [|x argv]]]]; cbn in Hlen; try lia;
    reflexivity.
Qed.

Lemma main_argv_rejects_wrong_arity_witness :
  main_argv
    (Scenario.world (Scenario.remote 200 Scenario.web2_worker1)
       (Scenario.commands Scenario.pending Scenario.upgraded))
    ["my_app"; "etc/production.ini"; "app:main"; "extra"]
  = Some (2, []).
Proof.
  apply main_argv_rejects_wrong_arity; [reflexivity | cbn; lia].
Defined.

Lemma maintenance_is_disabled_last_witness :
  let env := Scenario.world (Scenario.remote 200 Scenario.web2_worker1)
               (Scenario.commands Scenario.pending Scenario.upgraded) in
  let pre := firstn 8 (migration_trace Scenario.client Scenario.web2_worker1) in
  goes_well env [] pre = true /\
  fst (main env Scenario.app Scenario.ini Scenario.section) = Return tt.
Proof.
  intros env pre.
  destruct (maintenance_is_disabled_last env Scenario.app Scenario.ini
              Scenario.section pre
              (maintenance_request Scenario.client false) []
              eq_refl eq_refl) as (_ & Hpre & Hiff).
  split; [exact Hpre | apply Hiff; reflexivity].
Defined.

Lemma upgrade_runs_once_after_scale_down_witness :
  let env := Scenario.world (Scenario.remote 200 Scenario.web2_worker1)
               (Scenario.commands Scenario.pending Scenario.crashed) in
  goes_well env []
    (firstn 5 (plan_until_upgrade Scenario.client Scenario.web2_worker1))
  = true.
Proof.
  intros env.
  refine (proj1 (upgrade_runs_once_after_scale_down env Scenario.app
                   Scenario.ini Scenario.section _)).
  vm_compute. tauto.
Defined.


(** X9. With a cached formation that is not empty, [scale_down] and
    [scale_up] send one request each, whatever the answer: the first with
    every type of the formation at 0, the second with its types and
    quantities; neither reads the formation nor changes the object. *)
Theorem scaling_uses_the_cached_formation env st F :
  _formation (self st) = Some F -> F <> [] ->
  snd (scale_down env st)
  = record (Http (scale_request (self st) (zeros F))) st /\
  snd (scale_up env st)
  = record (Http (scale_request (self st) (Py.items F))) st.
Proof.
  intros H HF. rewrite scale_down_eq, scale_up_eq. unfold bind.
  rewrite (formation_cached env st F H HF), !send_scale_eq.
  split; reflexivity.
Qed.

Lemma scaling_uses_the_cached_formation_witness :
  let env := Scenario.world (Scenario.overloaded_remote Scenario.web2_worker1)
               (Scenario.commands Scenario.pending Scenario.upgraded) in
  let h := with_formation Scenario.client Scenario.web2_worker1 in
  snd (scale_up env (mkState h []))
  = mkState h [Http (scale_request h [("web", 2); ("worker", 1)])].
Proof.
  intros env h.
  refine (proj2 (scaling_uses_the_cached_formation env (mkState h [])
                   Scenario.web2_worker1 eq_refl _)).
  discriminate.
Defined.

Lemma nonempty_formation_is_read_once_witness :
  let env := Scenario.world (Scenario.remote 200 Scenario.web2_worker1)
               (Scenario.commands Scenario.pending Scenario.upgraded) in
  (List.length
     (formation_reads
        (trace (snd (main env Scenario.app Scenario.ini Scenario.section))))
   <= 1)%nat.
Proof.
  intros env.
  refine (nonempty_formation_is_read_once env Scenario.app Scenario.ini
            Scenario.section Scenario.web2_worker1 eq_refl _).
  discriminate.
Defined.


(** * The program on its host *)

(** ** Commands that cannot be run, output that cannot be decoded *)

Lemma decode_eq b :
  Py.decode b = if Py.utf8 b then Some b else None.
Proof. reflexivity. Qed.

Lemma full_shell_step host cmd env st :
  let ev := Subprocess cmd in
  Full.shell host cmd env st
  = if Full.step_succeeds host env (trace st) ev
    then (Return (stdout (run env (trace st) cmd)), record ev st)
    else (Raise (Full.exception_at host env (trace st) ev),
          if Full.starts host (trace st) ev then record ev st else st).
Proof.
  unfold Full.shell, Full.step_succeeds, Full.starts, Full.exception_at.
  cbv zeta. destruct (start host (trace st) cmd); [reflexivity|].
  destruct (returncode _ =? 0); [|reflexivity].
  rewrite decode_eq. destruct (Py.utf8 _); reflexivity.
Qed.

Lemma full_needs_migrate_step host env st :
  let ev := Subprocess (current_cmd (self st)) in
  Full.needs_migrate host env st
  = if Full.step_succeeds host env (trace st) ev
    then (Return (negb (Py.contains "head"
                    (stdout (run env (trace st) (current_cmd (self st)))))),
          record ev st)
    else (Raise (Full.exception_at host env (trace st) ev),
          if Full.starts host (trace st) ev then record ev st else st).
Proof.
  intros ev. unfold Full.needs_migrate, bind, get_self.
  rewrite full_shell_step. cbv zeta. fold ev.
  destruct (Full.step_succeeds host env (trace st) ev); reflexivity.
Qed.

Lemma full_alembic_step host env st :
  let ev := Subprocess (upgrade_cmd (self st)) in
  Full.alembic host env st
  = if Full.step_succeeds host env (trace st) ev
    then (Return (stdout (run env (trace st) (upgrade_cmd (self st)))),
          record ev st)
    else (Raise (Full.exception_at host env (trace st) ev),
          if Full.starts host (trace st) ev then record ev st else st).
Proof.
  intros ev. unfold Full.alembic, bind, get_self. apply full_shell_step.
Qed.

Lemma full_migrate_eq host env st :
  Full.migrate host env st =
  match Full.needs_migrate host env st with
  | (Return true, st1) =>
      (set_maintenance true ;; scale_down ;; sleep 30 ;;
       _ <- Full.alembic host ;;
       scale_up ;; sleep 30 ;; set_maintenance false) env st1
  | (Return false, st1) => (Return tt, st1)
  | (Raise e, st1) => (Raise e, st1)
  end.
Proof.
  unfold Full.migrate. unfold bind at 1.
  destruct (Full.needs_migrate host env st) as [[[|]|e] st1]; reflexivity.
Qed.

(** A command line that is run, with output that is decoded when the exit
    status is 0: [Full.shell] is [shell]. *)
Lemma full_shell_refines host cmd env st :
  start host (trace st) cmd = None ->
  (returncode (run env (trace st) cmd) = 0 ->
   Py.utf8 (stdout (run env (trace st) cmd)) = true) ->
  Full.shell host cmd env st = shell cmd env st.
Proof.
  intros Hs Hd. unfold Full.shell, shell. rewrite Hs. cbv zeta.
  destruct (Z.eqb_spec (returncode (run env (trace st) cmd)) 0) as [E|E];
    [|reflexivity].
  rewrite decode_eq, (Hd E). reflexivity.
Qed.

(** ** Every run on a host *)

Lemma full_step_http host env t r :
  Full.step_succeeds host env t (Http r) = step_succeeds env t (Http r).
Proof. reflexivity. Qed.

Lemma full_step_sleep host env t n :
  Full.step_succeeds host env t (Sleep n) = true.
Proof. reflexivity. Qed.

Lemma full_exception_http host env t r :
  Full.exception_at host env t (Http r) = exception_at env t (Http r).
Proof. reflexivity. Qed.

Lemma full_starts_http host t r : Full.starts host t (Http r) = true.
Proof. reflexivity. Qed.

#[local] Arguments Full.step_succeeds : simpl never.
#[local] Arguments Full.exception_at : simpl never.
#[local] Arguments Full.starts : simpl never.

Ltac full_norm :=
  unfold plan_until_upgrade, plan_after_upgrade;
  cbn [Full.follow Full.verdict List.app second_read];
  rewrite ?full_step_http, ?full_step_sleep, ?full_exception_http,
    ?full_starts_http.

Ltac command_case :=
  match goal with
  | |- context [Full.step_succeeds ?host ?env ?t (Subprocess ?c)] =>
      destruct (Full.step_succeeds host env t (Subprocess c)) eqn:?
  end.

Ltac full_use_steps :=
  repeat match goal with
         | H : step_succeeds _ _ _ = _ |- _ => progress (rewrite H)
         | H : Full.step_succeeds _ _ _ _ = _ |- _ => progress (rewrite H)
         end.

Ltac full_finish :=
  intros ->;
  repeat (progress (full_norm; full_use_steps));
  try match goal with
      | |- context [Full.starts ?host ?t ?ev] => destruct (Full.starts host t ev)
      end;
  split; reflexivity.

(** Every run on a host is the plan of its world, followed until the first
    step that does not succeed; a command that cannot be run leaves no
    step. *)
Lemma full_main_follows_plan host env app ini section :
  let h := __init__ env app ini section in
  let result := Full.main host env app ini section in
  trace (snd result)
  = (if Full.up_to_date host env h then [Subprocess (current_cmd h)]
     else Full.follow host env [] (plan env h)) /\
  fst result
  = (if Full.up_to_date host env h then Return tt
     else Full.verdict host env [] (plan env h)).
Proof.
  intros h result. subst result.
  remember (Full.main host env app ini section) as X eqn:HX. revert HX.
  unfold Full.main. fold h.
  rewrite full_migrate_eq, full_needs_migrate_step. next_step.
  unfold Full.up_to_date, plan. cbv zeta.
  full_norm. command_case; cbn [andb]; [|full_finish].
  destruct (Py.contains "head" (stdout (run env [] (current_cmd h))));
    cbn [negb]; [full_finish|].
  unfold bind at 1. rewrite set_maintenance_step. next_step.
  step_case; [|full_finish].
  unfold bind at 1. rewrite scale_down_eq. unfold bind at 1.
  rewrite formation_step by reflexivity. next_step.
  change (read_or_empty env _ h) with (first_formation env h).
  step_case; [|full_finish].
  rewrite send_scale_step. next_step. step_case; [|full_finish].
  unfold bind at 1. unfold sleep at 1. next_step.
  unfold bind at 1. rewrite full_alembic_step. next_step.
  command_case; [|full_finish].
  unfold bind at 1. rewrite scale_up_eq. unfold bind at 1.
  unfold last_formation.
  destruct (first_formation env h) as [|x F] eqn:EF.
  - rewrite formation_step by reflexivity. next_step.
    full_norm. step_case; [|full_finish].
    rewrite send_scale_step. next_step. step_case; [|full_finish].
    unfold bind at 1. unfold sleep at 1. next_step.
    rewrite set_maintenance_step. next_step. step_case; full_finish.
  - rewrite (formation_cached env _ (x :: F)) by (reflexivity || discriminate).
    rewrite send_scale_step. next_step. full_norm.
    step_case; [|full_finish].
    unfold bind at 1. unfold sleep at 1. next_step.
    rewrite set_maintenance_step. next_step. step_case; full_finish.
Qed.

Lemma full_follow_removelast host env b steps :
  Full.goes_well host env b (removelast (Full.follow host env b steps)) = true.
Proof.
  revert b. induction steps as [|x xs IH]; intros b; [reflexivity|].
  cbn [Full.follow]. destruct (Full.step_succeeds host env b x) eqn:E.
  - specialize (IH (b ++ [x])%list).
    destruct (Full.follow host env (b ++ [x]) xs) as [|y l] eqn:El;
      [reflexivity|].
    cbn [removelast] in *. cbn [Full.goes_well]. rewrite E. exact IH.
  - destruct (Full.starts host b x); reflexivity.
Qed.

Lemma full_verdict_returns host env b steps :
  Full.verdict host env b steps = Return tt
  <-> Full.goes_well host env b steps = true.
Proof.
  revert b. induction steps as [|x xs IH]; intros b;
    cbn [Full.verdict Full.goes_well]; [split; reflexivity|].
  destruct (Full.step_succeeds host env b x); cbn [andb];
    [apply IH | split; discriminate].
Qed.

Lemma full_follow_complete host env b steps :
  Full.goes_well host env b steps = true ->
  Full.follow host env b steps = steps.
Proof.
  revert b. induction steps as [|x xs IH]; intros b; cbn; [reflexivity|].
  intros H. apply andb_prop in H. destruct H as [Hx Hxs].
  rewrite Hx, IH by exact Hxs. reflexivity.
Qed.

Lemma full_follow_prefix host env b steps :
  exists rest, steps = (Full.follow host env b steps ++ rest)%list.
Proof.
  revert b. induction steps as [|x xs IH]; intros b; cbn [Full.follow].
  - exists []. reflexivity.
  - destruct (Full.step_succeeds host env b x).
    + destruct (IH (b ++ [x])%list) as [rest H]. exists rest. cbn. congruence.
    + destruct (Full.starts host b x); [exists xs | exists (x :: xs)];
        reflexivity.
Qed.

Lemma full_follow_In host env b steps ev :
  In ev (Full.follow host env b steps) -> In ev steps.
Proof.
  intros H. destruct (full_follow_prefix host env b steps) as [rest E].
  rewrite E. apply in_or_app. left. exact H.
Qed.

(** X1. Every run of [migrate] on a host is the plan of its world followed
    step by step: the status command alone when it succeeds and finds the
    schema up to date, and otherwise the steps of the plan up to the first
    one that does not succeed, which is in the trace unless it is a command
    that could not be run.  The run ends with the exception of that step,
    and returns when there is none; every step of the trace but the last
    has succeeded. *)
Theorem run_is_the_plan_followed host env app ini section :
  let h := __init__ env app ini section in
  let result := Full.main host env app ini section in
  let t := trace (snd result) in
  t = (if Full.up_to_date host env h then [Subprocess (current_cmd h)]
       else Full.follow host env [] (plan env h)) /\
  fst result = (if Full.up_to_date host env h then Return tt
                else Full.verdict host env [] (plan env h)) /\
  Full.goes_well host env [] (removelast t) = true /\
  (fst result = Return tt <->
   Full.up_to_date host env h = true
   \/ Full.goes_well host env [] (plan env h) = true).
Proof.
  intros h result t. subst t.
  destruct (full_main_follows_plan host env app ini section) as [Ht Ho].
  fold h result in Ht, Ho. rewrite Ht, Ho.
  split; [reflexivity|]. split; [reflexivity|].
  destruct (Full.up_to_date host env h) eqn:Eup.
  - split; [reflexivity|]. split; auto.
  - split; [apply full_follow_removelast|]. rewrite full_verdict_returns.
    split; [auto|]. intros [H|H]; [discriminate H | exact H].
Qed.

Lemma full_step_ext host env1 env2 t ev :
  (forall t r, send env1 t r = send env2 t r) ->
  (forall t c, returncode (run env1 t c) = returncode (run env2 t c)) ->
  (forall t c, Py.utf8 (stdout (run env1 t c))
               = Py.utf8 (stdout (run env2 t c))) ->
  Full.step_succeeds host env1 t ev = Full.step_succeeds host env2 t ev /\
  Full.exception_at host env1 t ev = Full.exception_at host env2 t ev.
Proof.
  intros Hs Hr Hu.
  destruct ev; unfold Full.step_succeeds, Full.exception_at; cbv zeta;
    rewrite ?Hr, ?Hu; try (split; reflexivity);
    apply step_succeeds_ext; assumption.
Qed.

Lemma full_follow_ext host env1 env2 t steps :
  (forall t r, send env1 t r = send env2 t r) ->
  (forall t c, returncode (run env1 t c) = returncode (run env2 t c)) ->
  (forall t c, Py.utf8 (stdout (run env1 t c))
               = Py.utf8 (stdout (run env2 t c))) ->
  Full.follow host env1 t steps = Full.follow host env2 t steps /\
  Full.verdict host env1 t steps = Full.verdict host env2 t steps.
Proof.
  intros Hs Hr Hu. revert t. induction steps as [|x xs IH]; intros t;
    cbn [Full.follow Full.verdict]; [split; reflexivity|].
  destruct (full_step_ext host env1 env2 t x Hs Hr Hu) as [-> ->].
  destruct (IH (t ++ [x])%list) as [-> ->]. split; reflexivity.
Qed.

(** X7. Of what the commands print, the program looks at two things only:
    whether it is valid UTF-8, and whether ["head"] occurs in the output of
    the status check.  On the same host, two worlds that give the same
    answers to requests and the same exit statuses to commands, and that
    agree on these two things, give the same run. *)
Theorem output_of_commands_is_not_interpreted host env1 env2 app ini section :
  let h := __init__ env1 app ini section in
  environ env1 "MIGRATE_API_SECRET_HEROKU"
  = environ env2 "MIGRATE_API_SECRET_HEROKU" ->
  default_headers env1 = default_headers env2 ->
  (forall t r, send env1 t r = send env2 t r) ->
  (forall t c, returncode (run env1 t c) = returncode (run env2 t c)) ->
  (forall t c, Py.utf8 (stdout (run env1 t c))
               = Py.utf8 (stdout (run env2 t c))) ->
  Py.contains "head" (stdout (run env1 [] (current_cmd h)))
  = Py.contains "head" (stdout (run env2 [] (current_cmd h))) ->
  fst (Full.main host env1 app ini section)
  = fst (Full.main host env2 app ini section) /\
  trace (snd (Full.main host env1 app ini section))
  = trace (snd (Full.main host env2 app ini section)).
Proof.
  intros h Hsecret Hdefaults Hs Hr Hu Hhead.
  assert (Hh : __init__ env2 app ini section = h).
  { unfold h, __init__, auth_key. rewrite Hsecret, Hdefaults. reflexivity. }
  destruct (full_main_follows_plan host env1 app ini section) as [Ht1 Ho1].
  destruct (full_main_follows_plan host env2 app ini section) as [Ht2 Ho2].
  rewrite Hh in Ht2, Ho2. fold h in Ht1, Ho1.
  assert (Hup : Full.up_to_date host env1 h = Full.up_to_date host env2 h).
  { unfold Full.up_to_date. rewrite Hhead.
    destruct (full_step_ext host env1 env2 [] (Subprocess (current_cmd h))
                Hs Hr Hu) as [-> _].
    reflexivity. }
  assert (Hread : forall t, read_or_empty env1 t h = read_or_empty env2 t h).
  { intros t. unfold read_or_empty, formation_read. rewrite Hs. reflexivity. }
  assert (Hplan : plan env1 h = plan env2 h).
  { unfold plan, last_formation, first_formation. rewrite !Hread.
    reflexivity. }
  destruct (full_follow_ext host env1 env2 [] (plan env2 h) Hs Hr Hu)
    as [Hf Hv].
  rewrite Ho1, Ho2, Ht1, Ht2, Hup, Hplan, Hf, Hv. split; reflexivity.
Qed.

Lemma output_of_commands_is_not_interpreted_witness :
  let env1 := Scenario.world (Scenario.remote 200 Scenario.web2_worker1)
                (Scenario.commands Scenario.pending Scenario.upgraded) in
  let env2 := Scenario.world (Scenario.remote 200 Scenario.web2_worker1)
                (Scenario.commands Scenario.pending
                   (mkCompleted 0 "ERROR: relation already exists")) in
  fst (Full.main Scenario.plain_host env1
         Scenario.app Scenario.ini Scenario.section)
  = fst (Full.main Scenario.plain_host env2
           Scenario.app Scenario.ini Scenario.section).
Proof.
  intros env1 env2.
  refine (proj1 (output_of_commands_is_not_interpreted Scenario.plain_host
                   env1 env2 Scenario.app Scenario.ini Scenario.section
                   eq_refl eq_refl _ _ _ eq_refl)).
  - intros t r. reflexivity.
  - intros [|e t] c; reflexivity.
  - intros [|e t] c; reflexivity.
Defined.

(** ** The command line *)

Lemma full_first_step host env app ini section :
  let h := __init__ env app ini section in
  match start host [] (current_cmd h) with
  | None =>
      hd_error (trace (snd (Full.main host env app ini section)))
      = Some (Subprocess (current_cmd h))
  | Some e =>
      Full.main host env app ini section = (Raise e, mkState h [])
  end.
Proof.
  intros h. destruct (start host [] (current_cmd h)) as [e|] eqn:E.
  - unfold Full.main. fold h.
    rewrite full_migrate_eq, full_needs_migrate_step. cbn [self trace].
    unfold Full.step_succeeds, Full.starts, Full.exception_at. rewrite E.
    reflexivity.
  - destruct (full_main_follows_plan host env app ini section) as [Ht _].
    fold h in Ht. rewrite Ht. unfold plan, plan_until_upgrade.
    cbn [List.app Full.follow].
    assert (Hs : Full.starts host [] (Subprocess (current_cmd h)) = true)
      by (unfold Full.starts; rewrite E; reflexivity).
    rewrite Hs.
    destruct (Full.up_to_date host env h); [reflexivity|].
    destruct (Full.step_succeeds host env [] _); reflexivity.
Qed.

(** X16. With one to three plain arguments, [main] runs the migration of the
    app named first, with [etc/production.ini] and [app:main] for the
    arguments that are missing.  The first step of the run is the status
    command built from them, when that command line can be run; when it
    cannot (a quotation mark in an argument that is not closed, no
    [alembic] to start) nothing at all is done and the exit status is 1. *)
Theorem main_argv_fills_in_defaults host env argv :
  let app := nth 0 argv "" in
  let ini := nth 1 argv "etc/production.ini" in
  let section := nth 2 argv "app:main" in
  let cmd := "alembic -c " ++ ini ++ " -n " ++ section ++ " current" in
  forallb is_plain argv = true ->
  (1 <= List.length argv <= 3)%nat ->
  Full.main_argv host env argv
  = Some (exit_code (fst (Full.main host env app ini section)),
          trace (snd (Full.main host env app ini section))) /\
  match start host [] cmd with
  | None =>
      hd_error (trace (snd (Full.main host env app ini section)))
      = Some (Subprocess cmd)
  | Some _ => Full.main_argv host env argv = Some (1, [])
  end.
Proof.
  intros app ini section cmd Hplain Hlen.
  assert (E : Full.main_argv host env argv
              = Some (exit_code (fst (Full.main host env app ini section)),
                      trace (snd (Full.main host env app ini section)))).
  { unfold Full.main_argv, parse_args. rewrite Hplain.
    destruct argv as [|a [|i [|s [|x argv]]]]; cbn in Hlen; try lia;
      reflexivity. }
  split; [exact E|].
  pose proof (full_first_step host env app ini section) as H.
  cbv zeta in H. change (current_cmd (__init__ env app ini section)) with cmd in H.
  destruct (start host [] cmd); [|exact H].
  rewrite E, H. reflexivity.
Qed.

Lemma main_argv_fills_in_defaults_witness :
  let env := Scenario.world (Scenario.remote 200 Scenario.web2_worker1)
               (Scenario.commands Scenario.at_head Scenario.upgraded) in
  Full.main_argv Scenario.plain_host env ["my_app"]
  = Some (0, [Subprocess "alembic -c etc/production.ini -n app:main current"])
  /\ Full.main_argv Scenario.quoting_host env ["my_app"; "it's.ini"]
     = Some (1, []).
Proof.
  intros env. split.
  - destruct (main_argv_fills_in_defaults Scenario.plain_host env ["my_app"]
                eq_refl) as [H _].
    + cbn. lia.
    + rewrite H. reflexivity.
  - destruct (main_argv_fills_in_defaults Scenario.quoting_host env
                ["my_app"; "it's.ini"] eq_refl) as [_ H].
    + cbn. lia.
    + exact H.
Defined.

(** ** The object during a run *)

Lemma full_shell_continues host env st0 cmd :
  continues env st0 (Full.shell host cmd).
Proof.
  intros st Hst. unfold Full.shell.
  destruct (start host (trace st) cmd); [exact Hst|]. cbv zeta.
  destruct (returncode _ =? 0);
    [rewrite decode_eq; destruct (Py.utf8 _)|];
    apply extends_record; auto; exact I.
Qed.
#[local] Hint Resolve full_shell_continues : continues.

Lemma full_needs_migrate_continues host env st0 :
  continues env st0 (Full.needs_migrate host).
Proof. unfold Full.needs_migrate. repeat continues_step. Qed.

Lemma full_alembic_continues host env st0 :
  continues env st0 (Full.alembic host).
Proof. unfold Full.alembic. repeat continues_step. Qed.

#[local] Hint Resolve full_needs_migrate_continues full_alembic_continues
  : continues.

Lemma full_migrate_continues host env st0 :
  continues env st0 (Full.migrate host).
Proof. unfold Full.migrate. repeat continues_step. Qed.

(** X18. From any state of the object, fresh or not, and on any host, a
    call of [migrate] leaves the name of the app, the configuration file,
    the section and the headers of the session as they were, and only adds
    steps to what was done before. *)
Theorem migrate_keeps_the_configuration host env st :
  let st' := snd (Full.migrate host env st) in
  app_name (self st') = app_name (self st) /\
  ini_file (self st') = ini_file (self st) /\
  app_section (self st') = app_section (self st) /\
  session (self st') = session (self st) /\
  exists more, trace st' = (trace st ++ more)%list.
Proof.
  intros st'. subst st'.
  destruct (continues_extends env (Full.migrate host) st
              (full_migrate_continues host env st))
    as (Ha & Hi & Hs & Hh & more & Ht & _).
  do 4 (split; [assumption|]).
  exists more. exact Ht.
Qed.

(** ** The credential on the wire *)

Lemma url_host_app_url h : url_host (app_url h) = "api.heroku.com".
Proof. reflexivity. Qed.

Lemma url_host_formation_url h : url_host (formation_url h) = "api.heroku.com".
Proof. reflexivity. Qed.

(** The requests of a plan are those of the object, to the platform API. *)
Lemma plan_request env h r :
  In (Http r) (plan env h) ->
  headers r = session h /\ url_host (url r) = "api.heroku.com".
Proof.
  unfold plan, plan_until_upgrade, plan_after_upgrade. intros H.
  apply in_app_or in H. destruct H as [H|H];
    [|apply in_app_or in H; destruct H as [H|H]].
  - cbn in H. repeat (destruct H as [H|H]; [try discriminate|]);
      try contradiction; injection H as <-; split; reflexivity.
  - destruct (first_formation env h); cbn in H; [|contradiction].
    destruct H as [H|[]]. injection H as <-. split; reflexivity.
  - cbn in H. repeat (destruct H as [H|H]; [try discriminate|]);
      try contradiction; injection H as <-; split; reflexivity.
Qed.

Lemma full_main_requests host env app ini section r :
  let h := __init__ env app ini section in
  In r (api_calls (trace (snd (Full.main host env app ini section)))) ->
  headers r = session h /\ url_host (url r) = "api.heroku.com".
Proof.
  intros h Hr. apply api_calls_In in Hr.
  destruct (full_main_follows_plan host env app ini section) as [Ht _].
  fold h in Ht. rewrite Ht in Hr.
  destruct (Full.up_to_date host env h).
  - destruct Hr as [Hr|[]]. discriminate Hr.
  - apply full_follow_In in Hr. exact (plan_request env h r Hr).
Qed.

(** C10, amended. When [MIGRATE_API_SECRET_HEROKU] is not in the
    environment, the session that [__init__] builds has the header
    [Authorization: Bearer None].  Every request of every run is sent with
    that header when [~/.netrc] has no entry for [api.heroku.com]; when it
    has one, every request is sent with the basic authentication of that
    entry instead. *)
Theorem authorization_when_secret_unset host env app ini section :
  environ env "MIGRATE_API_SECRET_HEROKU" = None ->
  let h := __init__ env app ini section in
  header_get "Authorization" (session h) = Some "Bearer None" /\
  forall r, In r (api_calls (trace (snd (Full.main host env app ini section)))) ->
    authorization_sent host r
    = match netrc host "api.heroku.com" with
      | Some (login, password) => Some (basic_auth_str login password)
      | None => Some "Bearer None"
      end.
Proof.
  intros Hsecret h.
  assert (Hh : header_get "Authorization" (session h) = Some "Bearer None").
  { unfold h. rewrite init_authorization. unfold auth_key. rewrite Hsecret.
    reflexivity. }
  split; [exact Hh|]. intros r Hr.
  destruct (full_main_requests host env app ini section r Hr) as [Hs Hu].
  fold h in Hs. unfold authorization_sent. rewrite Hu, Hs, Hh. reflexivity.
Qed.

Lemma authorization_when_secret_unset_witness :
  let env := Scenario.world (Scenario.remote 200 Scenario.web2_worker1)
               (Scenario.commands Scenario.pending Scenario.upgraded) in
  header_get "Authorization" (session Scenario.client) = Some "Bearer None" /\
  authorization_sent Scenario.plain_host
    (maintenance_request Scenario.client false)
  = Some "Bearer None".
Proof.
  intros env.
  destruct (authorization_when_secret_unset Scenario.plain_host env
              Scenario.app Scenario.ini Scenario.section eq_refl) as (H1 & H2).
  split; [exact H1|]. apply H2. vm_compute. tauto.
Defined.

(** C10, as stated, fails on a host where [~/.netrc] has an entry for
    [api.heroku.com], as it has once the Heroku command line tool has
    logged in: the secret is not set, the session has the header
    [Bearer None], and no request of the run is sent with it. *)
Lemma netrc_entry_replaces_bearer_none :
  let env := Scenario.world (Scenario.remote 200 Scenario.web2_worker1)
               (Scenario.commands Scenario.pending Scenario.upgraded) in
  let host := Scenario.logged_in_host in
  let result := Full.main host env Scenario.app Scenario.ini Scenario.section in
  environ env "MIGRATE_API_SECRET_HEROKU" = None /\
  header_get "Authorization" (session Scenario.client) = Some "Bearer None" /\
  fst result = Return tt /\
  map (authorization_sent host) (api_calls (trace (snd result)))
  = repeat (Some "Basic dXNlckBleGFtcGxlLmNvbTowMTIzLXNlY3JldA==") 5 /\
  ~ In (Some "Bearer None")
      (map (authorization_sent host) (api_calls (trace (snd result)))).
Proof.
  cbv zeta. do 4 (split; [reflexivity|]).
  vm_compute. intuition discriminate.
Qed.

(** ** The sequence of a migration *)

Lemma full_needs_migrate_ok host env st :
  Full.step_succeeds host env (trace st) (Subprocess (current_cmd (self st)))
  = true ->
  Full.needs_migrate host env st
  = (Return (negb (Py.contains "head"
                     (stdout (run env (trace st) (current_cmd (self st)))))),
     record (Subprocess (current_cmd (self st))) st).
Proof. intros H. rewrite full_needs_migrate_step. cbv zeta. rewrite H. reflexivity. Qed.

Lemma full_alembic_ok host env st :
  Full.step_succeeds host env (trace st) (Subprocess (upgrade_cmd (self st)))
  = true ->
  Full.alembic host env st
  = (Return (stdout (run env (trace st) (upgrade_cmd (self st)))),
     record (Subprocess (upgrade_cmd (self st))) st).
Proof. intros H. rewrite full_alembic_step. cbv zeta. rewrite H. reflexivity. Qed.

(** C1, amended. When every step succeeds (both [alembic] commands are
    run, exit with 0 and print valid UTF-8; every request gets a response
    that the client accepts and, for the formation, one that lists it), the
    output of the status command lacks ["head"] and the formation [F] that
    is read is not empty, the run is exactly: status command, PATCH
    maintenance=true, GET formation, PATCH formation with every type of [F]
    at 0, sleep 30, the upgrade command, PATCH formation with the quantities
    of [F], sleep 30, PATCH maintenance=false; [migrate] returns and the
    process exits with 0.  The formation is read after maintenance is
    enabled, not before. *)
Theorem migrate_call_sequence host env app ini section F :
  let h := __init__ env app ini section in
  let T := migration_trace h F in
  Py.contains "head" (stdout (run env [] (current_cmd h))) = false ->
  formation_read env (firstn 2 T) h = Some F ->
  F <> [] ->
  Full.goes_well host env [] T = true ->
  Full.main host env app ini section
  = (Return tt, mkState (with_formation h F) T) /\
  exit_code (fst (Full.main host env app ini section)) = 0.
Proof.
  intros h T Hhead Hread HF Hwell.
  assert (E : Full.main host env app ini section
              = (Return tt, mkState (with_formation h F) T));
    [|rewrite E; split; reflexivity].
  unfold T, migration_trace in *. cbn [firstn] in Hread.
  cbn [Full.goes_well List.app] in Hwell.
  repeat (apply andb_prop in Hwell; destruct Hwell as [? Hwell]).
  rewrite ?full_step_http in *.
  unfold Full.main. fold h. rewrite full_migrate_eq.
  rewrite (full_needs_migrate_ok host env (mkState h [])) by assumption.
  state_norm. rewrite Hhead. cbn [negb].
  unfold bind at 1.
  rewrite (set_maintenance_ok env (mkState h [_])) by assumption. state_norm.
  unfold bind at 1. rewrite scale_down_eq. unfold bind at 1.
  rewrite (formation_fetched env (mkState h [_; _]) F)
    by (reflexivity || assumption).
  state_norm.
  rewrite (send_scale_ok env (mkState (with_formation h F) [_; _; _]))
    by assumption.
  state_norm. unfold bind at 1. unfold sleep at 1. state_norm.
  unfold bind at 1.
  rewrite (full_alembic_ok host env
             (mkState (with_formation h F) [_; _; _; _; _]))
    by assumption.
  state_norm. unfold bind at 1. rewrite scale_up_eq. unfold bind at 1.
  rewrite (formation_cached env (mkState (with_formation h F) _) F)
    by (reflexivity || assumption).
  rewrite (send_scale_ok env
             (mkState (with_formation h F) [_; _; _; _; _; _])) by assumption.
  state_norm. unfold bind at 1. unfold sleep at 1. state_norm.
  rewrite (set_maintenance_ok env
             (mkState (with_formation h F) [_; _; _; _; _; _; _; _]))
    by assumption.
  reflexivity.
Qed.

Lemma migrate_call_sequence_witness :
  let env := Scenario.world (Scenario.remote 200 Scenario.web2_worker1)
               (Scenario.commands Scenario.pending Scenario.upgraded) in
  Full.main Scenario.plain_host env Scenario.app Scenario.ini Scenario.section
  = (Return tt,
     mkState (with_formation Scenario.client Scenario.web2_worker1)
             (migration_trace Scenario.client Scenario.web2_worker1)).
Proof.
  intros env.
  refine (proj1 (migrate_call_sequence Scenario.plain_host env Scenario.app
                   Scenario.ini Scenario.section Scenario.web2_worker1
                   _ _ _ _)).
  - reflexivity.
  - reflexivity.
  - discriminate.
  - reflexivity.
Defined.

(** ** Responses with an error status, and the other ones *)

Lemma rejection_as_200 res : rejection (as_200 res) = rejection res.
Proof.
  unfold as_200. destruct (rejection res) eqn:E; [exact E | reflexivity].
Qed.

Lemma listing_as_200 res : listing (as_200 res) = listing res.
Proof.
  unfold listing. rewrite rejection_as_200. unfold as_200.
  destruct (rejection res); reflexivity.
Qed.

Lemma formation_lenient env st : formation (lenient env) st = formation env st.
Proof.
  rewrite !formation_eq. cbn [lenient send].
  destruct (_formation (self st)) as [[|x d]|]; try reflexivity; cbv zeta;
    (destruct (send env (trace st) _) as [e|res]; [reflexivity|]);
    rewrite listing_as_200; reflexivity.
Qed.

Lemma send_scale_lenient us env st :
  send_scale us (lenient env) st = send_scale us env st.
Proof.
  rewrite !send_scale_eq. cbn [lenient send].
  destruct (send env (trace st) _) as [e|res]; [reflexivity|].
  rewrite listing_as_200. reflexivity.
Qed.

Lemma set_maintenance_lenient state env st :
  set_maintenance state (lenient env) st = set_maintenance state env st.
Proof.
  rewrite !set_maintenance_eq. cbn [lenient send].
  destruct (send env (trace st) _) as [e|res]; [reflexivity|].
  rewrite rejection_as_200. reflexivity.
Qed.

Lemma perform_lenient op env st :
  perform op (lenient env) st = perform op env st.
Proof.
  destruct op; cbn [perform].
  - unfold bind. rewrite formation_lenient. reflexivity.
  - rewrite (scale_down_eq (lenient env)), (scale_down_eq env).
    unfold bind. rewrite formation_lenient.
    destruct (formation env st) as [[F|e] st']; [|reflexivity].
    apply send_scale_lenient.
  - rewrite (scale_up_eq (lenient env)), (scale_up_eq env).
    unfold bind. rewrite formation_lenient.
    destruct (formation env st) as [[F|e] st']; [|reflexivity].
    apply send_scale_lenient.
  - apply set_maintenance_lenient.
Qed.

(** The requests of an operation, with the state in which each is sent. *)
Lemma send_scale_request us env st pre r post :
  trace (snd (send_scale us env st)) = (trace st ++ pre ++ Http r :: post)%list ->
  pre = [] /\ post = [] /\ r = scale_request (self st) us.
Proof.
  rewrite send_scale_eq. cbn [snd record trace]. intros H.
  apply app_inv_head in H.
  destruct pre as [|ev [|ev' pre]]; try discriminate H.
  injection H as <- <-. auto.
Qed.

Lemma error_status_stops_scale us env st pre r post res :
  trace (snd (send_scale us env st)) = (trace st ++ pre ++ Http r :: post)%list ->
  send env (trace st ++ pre) r = inr res ->
  400 <= status_code res < 600 ->
  post = [] /\
  fst (send_scale us env st)
  = Raise match content res with
          | NotJson => JSONDecodeError
          | _ => HTTPError (status_code res)
          end.
Proof.
  intros Ht Hsend Hcode.
  destruct (send_scale_request us env st pre r post Ht) as (-> & -> & ->).
  split; [reflexivity|]. rewrite app_nil_r in Hsend.
  rewrite send_scale_eq, Hsend.
  rewrite (rejected_listing res _ (error_status_rejected res Hcode)).
  reflexivity.
Qed.

Lemma error_status_stops_formation env st pre r post res :
  trace (snd (formation env st)) = (trace st ++ pre ++ Http r :: post)%list ->
  send env (trace st ++ pre) r = inr res ->
  400 <= status_code res < 600 ->
  pre = [] /\ post = [] /\
  formation env st
  = (Raise match content res with
           | NotJson => JSONDecodeError
           | _ => HTTPError (status_code res)
           end,
     record (Http r) st).
Proof.
  rewrite formation_eq. intros Ht Hsend Hcode.
  pose proof (rejected_listing res _ (error_status_rejected res Hcode)) as Hl.
  assert (Hnil : forall t : list event, t = (t ++ pre ++ Http r :: post)%list
                                        -> False).
  { intros t H. rewrite <- (app_nil_r t) in H at 1. apply app_inv_head in H.
    destruct pre; discriminate H. }
  assert (Hone : forall (t : list event) r0,
             (t ++ [Http r0] = t ++ pre ++ Http r :: post)%list ->
             pre = [] /\ post = [] /\ r = r0).
  { intros t r0 H. apply app_inv_head in H.
    destruct pre as [|ev [|ev' pre]]; try discriminate H.
    injection H as <- <-. auto. }
  destruct (_formation (self st)) as [[|x d]|]; cbv zeta in *;
    try (exfalso; exact (Hnil _ Ht));
    (destruct (send env (trace st) (formation_request (self st)))
       as [e|res0] eqn:E;
     [|destruct (listing res0) as [e|xs] eqn:El];
     cbn [snd record trace] in Ht;
     destruct (Hone _ _ Ht) as (-> & -> & ->);
     rewrite app_nil_r in Hsend; rewrite E in Hsend; try discriminate Hsend;
     injection Hsend as ->; rewrite Hl in El; try discriminate El;
     injection El as ->; auto).
Qed.

(** What a formation that is returned has cost: nothing when it was cached,
    and otherwise one read that was accepted. *)
Lemma formation_returns env st F st1 :
  formation env st = (Return F, st1) ->
  st1 = st \/
  (trace st1 = (trace st ++ [Http (formation_request (self st))])%list /\
   formation_request (self st1) = formation_request (self st) /\
   exists res0,
     send env (trace st) (formation_request (self st)) = inr res0 /\
     rejection res0 = None).
Proof.
  rewrite formation_eq.
  destruct (_formation (self st)) as [[|x d]|]; cbv zeta;
    try (intros H; injection H as <- <-; left; reflexivity);
    (destruct (send env (trace st) _) as [e|res0] eqn:E; [discriminate|];
     unfold listing; destruct (rejection res0) eqn:Er; [discriminate|];
     destruct (content res0); try discriminate;
     intros H; injection H as <- <-; right;
     split; [reflexivity|]; split; [reflexivity|]; eauto).
Qed.

Lemma error_status_stops_scaling us env st pre r post res :
  let result := (F <- formation ;; send_scale (us F)) env st in
  trace (snd result) = (trace st ++ pre ++ Http r :: post)%list ->
  send env (trace st ++ pre) r = inr res ->
  400 <= status_code res < 600 ->
  post = [] /\
  fst result
  = Raise match content res with
          | NotJson => JSONDecodeError
          | _ => HTTPError (status_code res)
          end.
Proof.
  intros result Ht Hsend Hcode. subst result. unfold bind in *.
  destruct (formation env st) as [[F|e] st1] eqn:Ef.
  - destruct (formation_returns env st F st1 Ef)
      as [->|(Ht1 & Hreq & res0 & Hs0 & Hr0)].
    + apply (error_status_stops_scale (us F) env st pre r post res); assumption.
    + pose proof Ht as Ht'. rewrite send_scale_eq in Ht'.
      cbn [snd record trace] in Ht'. rewrite Ht1, <- app_assoc in Ht'.
      apply app_inv_head in Ht'.
      destruct pre as [|ev [|ev' pre]]; cbn [List.app] in Ht'.
      * injection Ht' as <- _. rewrite app_nil_r, Hs0 in Hsend.
        injection Hsend as ->.
        rewrite (error_status_rejected res Hcode) in Hr0. discriminate Hr0.
      * injection Ht' as <- Hr <-. rewrite <- Ht1 in Hsend.
        apply (error_status_stops_scale (us F) env st1 [] r [] res);
          [|rewrite app_nil_r; exact Hsend | exact Hcode].
        rewrite send_scale_eq. cbn [snd record trace List.app]. congruence.
      * destruct pre; discriminate Ht'.
  - cbn [fst snd] in *.
    assert (Ht2 : trace (snd (formation env st))
                  = (trace st ++ pre ++ Http r :: post)%list)
      by (rewrite Ef; exact Ht).
    destruct (error_status_stops_formation env st pre r post res Ht2 Hsend Hcode)
      as (_ & -> & Hf).
    split; [reflexivity|]. congruence.
Qed.

(** C4, amended. For every API operation (formation read, scale-down,
    scale-up, maintenance toggle) and for every request that it sends, the
    formation read of a scale operation included: when the response has a
    status code from 400 to 599, the request is the last step of the
    operation, the operation raises and nothing that follows it runs; 4xx
    and 5xx are treated alike.  The exception is the [HTTPError] of
    [raise_for_status] when the body of the response is JSON, and the
    decoding error of [res.json()] when it is not.  A response with another
    status than 200, outside 400-599 and with a JSON body, is accepted by
    [parse_response], and every operation goes on as for the same response
    with status 200. *)
Theorem error_status_is_fatal env st op :
  (forall pre r post res,
     let result := perform op env st in
     let x := match content res with
              | NotJson => JSONDecodeError
              | _ => HTTPError (status_code res)
              end in
     trace (snd result) = (trace st ++ pre ++ Http r :: post)%list ->
     send env (trace st ++ pre) r = inr res ->
     400 <= status_code res < 600 ->
     post = [] /\
     fst result = Raise x /\
     forall (B : Type) (k : unit -> M B),
       bind (perform op) k env st = (Raise x, snd result)) /\
  (forall res,
     status_code res <> 200 -> ~ 400 <= status_code res < 600 ->
     content res <> NotJson ->
     parse_response res env st = (Return true, st) /\
     as_200 res = mkResponse 200 (content res)) /\
  perform op (lenient env) st = perform op env st.
Proof.
  split; [|split; [|apply perform_lenient]].
  - intros pre r post res result x Ht Hsend Hcode.
    assert (E : post = [] /\ fst result = Raise x).
    { subst result x. destruct op; cbn [perform] in *.
      - unfold bind in *.
        assert (Ht2 : trace (snd (formation env st))
                      = (trace st ++ pre ++ Http r :: post)%list)
          by (destruct (formation env st) as [[F|e] st1]; exact Ht).
        destruct (error_status_stops_formation env st pre r post res
                    Ht2 Hsend Hcode) as (_ & -> & Hf).
        rewrite Hf. split; reflexivity.
      - rewrite scale_down_eq in *.
        exact (error_status_stops_scaling zeros env st pre r post res
                 Ht Hsend Hcode).
      - rewrite scale_up_eq in *.
        exact (error_status_stops_scaling Py.items env st pre r post res
                 Ht Hsend Hcode).
      - rewrite set_maintenance_eq in *. cbn [snd fst record trace] in *.
        apply app_inv_head in Ht.
        destruct pre as [|ev [|ev' pre]]; try discriminate Ht.
        injection Ht as <- <-. rewrite app_nil_r in Hsend.
        rewrite Hsend, (error_status_rejected res Hcode).
        split; reflexivity. }
    destruct E as [-> E]. split; [reflexivity|]. split; [exact E|].
    intros B k. unfold bind. fold result.
    destruct result as [[u|e] st']; cbn [fst snd] in *; congruence.
  - intros res H200 Herr Hjson. rewrite parse_response_eq.
    assert (Hrej : rejection res = None).
    { unfold rejection. apply Z.eqb_neq in H200. rewrite H200.
      destruct (content res); try congruence;
        destruct (is_error_status (status_code res)) eqn:E; try reflexivity;
        apply is_error_status_range in E; contradiction. }
    unfold as_200. rewrite Hrej. split; reflexivity.
Qed.

Lemma error_status_is_fatal_witness :
  let env := Scenario.world (Scenario.overloaded_remote Scenario.web2_worker1)
               (Scenario.commands Scenario.pending Scenario.upgraded) in
  let h := Scenario.client in
  let r := scale_request h (zeros Scenario.web2_worker1) in
  perform ScaleDown env (mkState h [])
  = (Raise (HTTPError 503),
     mkState (with_formation h Scenario.web2_worker1)
       [Http (formation_request h); Http r]) /\
  fst (perform ScaleDown env (mkState h [])) = Raise (HTTPError 503).
Proof.
  intros env h r. split; [reflexivity|].
  destruct (error_status_is_fatal env (mkState h []) ScaleDown) as [H _].
  refine (proj1 (proj2 (H [Http (formation_request h)] r []
                          (mkResponse 503 OtherJson) eq_refl eq_refl _))).
  cbn. lia.
Defined.


(** ** Hosts on which the commands run *)

Lemma bind_same {A B} (m : M A) (k1 k2 : A -> M B) env st :
  (forall a st', m env st = (Return a, st') -> k1 a env st' = k2 a env st') ->
  bind m k1 env st = bind m k2 env st.
Proof.
  intros H. unfold bind. destruct (m env st) as [[a|e] st']; auto.
Qed.

Lemma main_first_step env app ini section :
  exists post,
    trace (snd (main env app ini section))
    = Subprocess (current_cmd (__init__ env app ini section)) :: post.
Proof.
  destruct (main_follows_plan env app ini section) as [Ht _].
  rewrite Ht. unfold expected_trace.
  destruct (up_to_date env _); eexists; reflexivity.
Qed.

(** X19. On a host where every command of a run is run, and prints valid
    UTF-8 when it exits with 0, the run is the one of [main], which takes
    this for granted: same outcome, same steps, same object at the end. *)
Theorem commands_that_run_give_the_run_of_main host env app ini section :
  (forall pre cmd post,
     trace (snd (main env app ini section))
     = (pre ++ Subprocess cmd :: post)%list ->
     start host pre cmd = None /\
     (returncode (run env pre cmd) = 0 ->
      Py.utf8 (stdout (run env pre cmd)) = true)) ->
  Full.main host env app ini section = main env app ini section.
Proof.
  intros H. set (h := __init__ env app ini section).
  set (st0 := mkState h []).
  assert (H1 : Full.needs_migrate host env st0 = needs_migrate env st0).
  { destruct (main_first_step env app ini section) as [post Ht].
    destruct (H [] _ post Ht) as [Hs Hd].
    unfold Full.needs_migrate, needs_migrate, bind, get_self.
    rewrite full_shell_refines by assumption. reflexivity. }
  unfold Full.main, main in *. fold h st0 in H |- *.
  rewrite full_migrate_eq, migrate_eq, H1.
  destruct (needs_migrate env st0) as [[[|]|e] st1] eqn:E1; try reflexivity.
  apply bind_same. intros u2 st2 E2.
  apply bind_same. intros u3 st3 E3.
  apply bind_same. intros u4 st4 E4.
  assert (Hmain : exists post,
             trace (snd (migrate env st0))
             = (trace st4 ++ Subprocess (upgrade_cmd (self st4)) :: post)%list).
  { rewrite migrate_eq, E1. unfold bind at 1. rewrite E2.
    unfold bind at 1. rewrite E3. unfold bind at 1. rewrite E4.
    unfold bind at 1. rewrite alembic_eq. cbv zeta.
    destruct (returncode _ =? 0); [|exists []; reflexivity].
    match goal with
    | |- context [?m env ?st] =>
        match m with
        | bind _ _ =>
            assert (Hc : continues env st m) by (repeat continues_step);
            apply continues_extends in Hc; destruct (m env st) as [o st']
        end
    end.
    destruct Hc as (_ & _ & _ & _ & more & Ht & _). cbn [snd trace] in *.
    exists more. rewrite Ht. unfold record. cbn [trace].
    rewrite <- app_assoc. reflexivity. }
  destruct Hmain as [post Ht]. destruct (H _ _ post Ht) as [Hs Hd].
  assert (H5 : Full.alembic host env st4 = alembic env st4).
  { unfold Full.alembic, alembic, bind, get_self.
    apply full_shell_refines; assumption. }
  unfold bind at 1 3. rewrite H5. reflexivity.
Qed.

Lemma commands_that_run_give_the_run_of_main_witness :
  let env := Scenario.world (Scenario.remote 200 Scenario.web2_worker1)
               (Scenario.commands Scenario.pending Scenario.crashed) in
  Full.main Scenario.plain_host env Scenario.app Scenario.ini Scenario.section
  = main env Scenario.app Scenario.ini Scenario.section.
Proof.
  intros env.
  apply (commands_that_run_give_the_run_of_main Scenario.plain_host env
           Scenario.app Scenario.ini Scenario.section).
  intros pre cmd post Ht. split; [reflexivity|].
  intros Hrc.
  destruct pre as [|ev pre]; [reflexivity|].
  cbn in Hrc. discriminate Hrc.
Defined.

(** ** Failures on a host *)

Lemma full_shell_careful host env cmd : careful env (Full.shell host cmd).
Proof.
  intros st Hs. unfold Full.shell.
  destruct (start host (trace st) cmd);
    [apply no_failure_stopped; exact Hs|].
  cbv zeta. destruct (returncode _ =? 0) eqn:E;
    [rewrite decode_eq; destruct (Py.utf8 _)|]; cbn.
  - apply no_failure_snoc; [exact Hs|]. cbn. rewrite E. reflexivity.
  - apply stopped_snoc; [exact Hs|]. cbn. rewrite E. discriminate.
  - apply stopped_snoc; [exact Hs|]. cbn. auto.
Qed.
#[local] Hint Resolve full_shell_careful : careful.

Lemma full_needs_migrate_careful host env :
  careful env (Full.needs_migrate host).
Proof. unfold Full.needs_migrate. repeat careful_step. Qed.

Lemma full_alembic_careful host env : careful env (Full.alembic host).
Proof. unfold Full.alembic. repeat careful_step. Qed.

#[local] Hint Resolve full_needs_migrate_careful full_alembic_careful
  : careful.

Lemma full_migrate_careful host env : careful env (Full.migrate host).
Proof. unfold Full.migrate. repeat careful_step. Qed.

(** X20. On every host and in every run, a step that fails (a request
    that gets no response or a response that [parse_response] rejects, a
    command that exits with a status other than 0) is the last step of the
    run, and the exception it raises is the outcome of the run: nothing is
    retried, nothing is undone. *)
Theorem failed_step_ends_the_run host env app ini section pre ev post :
  let result := Full.main host env app ini section in
  trace (snd result) = (pre ++ ev :: post)%list ->
  failed env pre ev = true ->
  post = [] /\
  (exists x, fst result = Raise x /\ raised_by env pre ev x) /\
  exit_code (fst result) = 1.
Proof.
  intros result. subst result. unfold Full.main. intros Ht Hf.
  pose proof (full_migrate_careful host env
                (mkState (__init__ env app ini section) [])
                (no_failure_nil env)) as H.
  destruct (Full.migrate host env _) as [[[]|x] st]; cbn in *.
  - rewrite (H _ _ _ Ht) in Hf. discriminate.
  - destruct (H _ _ _ Ht Hf) as [-> Hx]. eauto.
Qed.

Lemma failed_step_ends_the_run_witness :
  let env := Scenario.world (Scenario.overloaded_remote Scenario.web2_worker1)
               (Scenario.commands Scenario.pending Scenario.upgraded) in
  fst (Full.main Scenario.plain_host env
         Scenario.app Scenario.ini Scenario.section)
  = Raise (HTTPError 503).
Proof.
  intros env.
  destruct (failed_step_ends_the_run Scenario.plain_host env Scenario.app
              Scenario.ini Scenario.section
              [Subprocess (current_cmd Scenario.client);
               Http (maintenance_request Scenario.client true);
               Http (formation_request Scenario.client)]
              (Http (scale_request Scenario.client
                       (zeros Scenario.web2_worker1)))
              [] eq_refl eq_refl)
    as (_ & (x & Hx & Hby) & _).
  rewrite Hx. cbn in Hby. congruence.
Defined.

Lemma full_follow_app host env b xs ys :
  Full.follow host env b (xs ++ ys)
  = if Full.goes_well host env b xs
    then (xs ++ Full.follow host env (b ++ xs) ys)%list
    else Full.follow host env b xs.
Proof.
  revert b. induction xs as [|x xs IH]; intros b;
    cbn [Full.follow Full.goes_well List.app].
  - rewrite app_nil_r. reflexivity.
  - destruct (Full.step_succeeds host env b x); cbn [andb]; [|reflexivity].
    rewrite IH, <- app_assoc. cbn [List.app].
    destruct (Full.goes_well host env (b ++ [x]) xs); reflexivity.
Qed.

Lemma full_verdict_app host env b xs ys :
  Full.verdict host env b (xs ++ ys)
  = if Full.goes_well host env b xs
    then Full.verdict host env (b ++ xs) ys
    else Full.verdict host env b xs.
Proof.
  revert b. induction xs as [|x xs IH]; intros b;
    cbn [Full.verdict Full.goes_well List.app].
  - rewrite app_nil_r. reflexivity.
  - destruct (Full.step_succeeds host env b x); cbn [andb]; [|reflexivity].
    rewrite IH, <- app_assoc. reflexivity.
Qed.

(** X21. When the upgrade command is run and exits with 0, but what it
    printed is not valid UTF-8, the run ends there with
    [UnicodeDecodeError]: the migration has been applied, and the app is
    left scaled down and in maintenance, since scale-up is not requested
    and no request disables maintenance. *)
Theorem undecodable_upgrade_output_strands_the_app host env app ini section :
  let h := __init__ env app ini section in
  let result := Full.main host env app ini section in
  let t := trace (snd result) in
  let before := firstn 5 (plan_until_upgrade h (first_formation env h)) in
  In (Subprocess (upgrade_cmd h)) t ->
  returncode (run env before (upgrade_cmd h)) = 0 ->
  Py.utf8 (stdout (run env before (upgrade_cmd h))) = false ->
  fst result = Raise UnicodeDecodeError /\
  t = (before ++ [Subprocess (upgrade_cmd h)])%list /\
  filter is_scale (api_calls t)
  = [scale_request h (zeros (first_formation env h))] /\
  filter disables_maintenance (api_calls t) = [].
Proof.
  intros h result t before Hin Hrc Hutf. subst t.
  destruct (full_main_follows_plan host env app ini section) as [Ht Ho].
  fold h result in Ht, Ho. rewrite Ht, Ho in *. clear Ht Ho.
  destruct (Full.up_to_date host env h).
  { destruct Hin as [H|[]]. exfalso. apply (current_is_not_upgrade h).
    congruence. }
  set (rest := (second_read h (first_formation env h)
                ++ plan_after_upgrade h (last_formation env h))%list).
  assert (Ep : plan env h = (before ++ Subprocess (upgrade_cmd h) :: rest)%list)
    by reflexivity.
  assert (Hbefore : ~ In (Subprocess (upgrade_cmd h)) before).
  { subst before. cbn. intros H.
    repeat (destruct H as [H|H]; [try discriminate H|]); try contradiction.
    apply (current_is_not_upgrade h). congruence. }
  rewrite Ep, full_follow_app, full_verdict_app in *.
  destruct (Full.goes_well host env [] before).
  2:{ exfalso. apply full_follow_In in Hin. exact (Hbefore Hin). }
  cbn [List.app Full.follow Full.verdict] in *.
  assert (Es : Full.step_succeeds host env before (Subprocess (upgrade_cmd h))
               = false).
  { unfold Full.step_succeeds. cbv zeta. rewrite Hutf. apply andb_false_r. }
  rewrite Es in *.
  destruct (Full.starts host before (Subprocess (upgrade_cmd h))) eqn:Est.
  2:{ exfalso. rewrite app_nil_r in Hin. exact (Hbefore Hin). }
  split.
  { unfold Full.exception_at. unfold Full.starts in Est.
    destruct (start host before (upgrade_cmd h)); [discriminate Est|].
    cbv zeta. rewrite Hrc. reflexivity. }
  split; [reflexivity|]. split; reflexivity.
Qed.

Lemma undecodable_upgrade_output_strands_the_app_witness :
  let env := Scenario.world (Scenario.remote 200 Scenario.web2_worker1)
               (Scenario.commands Scenario.pending Scenario.latin1) in
  let result := Full.main Scenario.plain_host env
                  Scenario.app Scenario.ini Scenario.section in
  fst result = Raise UnicodeDecodeError /\
  trace (snd result)
  = firstn 6 (migration_trace Scenario.client Scenario.web2_worker1).
Proof.
  intros env result.
  destruct (undecodable_upgrade_output_strands_the_app Scenario.plain_host env
              Scenario.app Scenario.ini Scenario.section)
    as (Ho & Ht & _).
  - vm_compute. tauto.
  - reflexivity.
  - reflexivity.
  - split; [exact Ho | exact Ht].
Defined.

(** ** The status check on a host *)

(** X22. The ways in which the status check ends a run, on any host.  When
    the command cannot be run, the run ends with the error and nothing is
    recorded; when it exits with another status than 0, with
    [CalledProcessError]; when it exits with 0 and its output is not valid
    UTF-8, with [UnicodeDecodeError]; when its output is text in which
    ["head"] occurs, [migrate] returns.  In these four cases no request is
    sent to the platform API.  In the case that is left the migration gets
    under way, and the first request enables maintenance. *)
Theorem status_check_on_a_host host env app ini section :
  let h := __init__ env app ini section in
  let ev := Subprocess (current_cmd h) in
  let p := run env [] (current_cmd h) in
  let result := Full.main host env app ini section in
  match start host [] (current_cmd h) with
  | Some e => result = (Raise e, mkState h [])
  | None =>
      if returncode p =? 0
      then if Py.utf8 (stdout p)
           then if Py.contains "head" (stdout p)
                then result = (Return tt, mkState h [ev])
                else hd_error (api_calls (trace (snd result)))
                     = Some (maintenance_request h true)
           else result = (Raise UnicodeDecodeError, mkState h [ev])
      else result = (Raise (CalledProcessError (returncode p)), mkState h [ev])
  end.
Proof.
  intros h ev p result. subst result. unfold Full.main. fold h.
  rewrite full_migrate_eq, full_needs_migrate_step. cbn [self trace].
  unfold Full.step_succeeds, Full.starts, Full.exception_at. cbv zeta.
  fold p. destruct (start host [] (current_cmd h)); [reflexivity|].
  cbn [andb]. destruct (returncode p =? 0); [|reflexivity].
  destruct (Py.utf8 (stdout p)); [|reflexivity]. cbn [andb].
  destruct (Py.contains "head" (stdout p)); cbn [negb]; [reflexivity|].
  unfold bind at 1. rewrite set_maintenance_eq. next_step.
  destruct (match send env _ _ with inl e => _ | inr _ => _ end) as [[]|x];
    [|reflexivity].
  match goal with
  | |- context [?m env ?st] =>
      match m with
      | bind _ _ =>
          assert (Hc : continues env st m) by (repeat continues_step);
          apply continues_extends in Hc; destruct (m env st) as [o st']
      end
  end.
  destruct Hc as (_ & _ & _ & _ & more & Ht & _). cbn [snd trace] in *.
  rewrite Ht. reflexivity.
Qed.

(** X23. On every host, the steps of a run are the first steps of its plan,
    in the same order: a run makes at most ten steps, at most six of them
    requests to the platform API, and the first request, if any is sent, is
    the one that enables maintenance. *)
Theorem run_on_a_host_starts_the_plan host env app ini section :
  let h := __init__ env app ini section in
  let t := trace (snd (Full.main host env app ini section)) in
  (exists rest, plan env h = (t ++ rest)%list) /\
  (List.length t <= 10)%nat /\
  (List.length (api_calls t) <= 6)%nat /\
  (api_calls t = [] \/
   exists rest, api_calls t = maintenance_request h true :: rest).
Proof.
  intros h t. subst t.
  destruct (full_main_follows_plan host env app ini section) as [Ht _].
  fold h in Ht. rewrite Ht. clear Ht.
  assert (Hlen : (List.length (plan env h) <= 10)%nat
                 /\ (List.length (api_calls (plan env h)) <= 6)%nat).
  { unfold plan, api_calls. rewrite !flat_map_app, !length_app.
    destruct (first_formation env h); cbn; lia. }
  destruct (Full.up_to_date host env h).
  - split; [eexists; reflexivity|]. cbn. split; [lia|]. split; [lia|].
    left. reflexivity.
  - destruct (full_follow_prefix host env [] (plan env h)) as [rest E].
    split; [exists rest; exact E|].
    rewrite E in Hlen. unfold api_calls in *.
    rewrite flat_map_app, !length_app in Hlen.
    split; [lia|]. split; [lia|].
    unfold plan, plan_until_upgrade. cbn [List.app Full.follow].
    destruct (Full.step_succeeds host env [] _);
      [|destruct (Full.starts host [] _); left; reflexivity].
    rewrite full_step_http, full_starts_http.
    destruct (step_succeeds env _ _); right; eexists; reflexivity.
Qed.

(** ** Bodies that do not list a formation *)


